(** * creqit customisations: Facebook Lead Ads settings form, Meta Lead
      Account List, and the OAuth2 / webhook integration core

    Shallow embedding of
    - [creqit/meta/doctype/meta_lead_account_list/meta_lead_account_list.js]
    - [creqit/meta/doctype/facebook_lead_ads_settings/facebook_lead_ads_settings.js]
    - [creqit/custom/doctype/account_dashboard/account_dashboard.js]
    and of the server-side integration core (token status, webhook receiver)
    that those forms call into. *)

From Stdlib Require Import String Ascii List ZArith QArith Bool Lia.
Import ListNotations.
Local Close Scope Q_scope.
Local Open Scope string_scope.
Set Warnings "-register-all".

(* ===================================================================== *)
(** ** Strings *)
(* ===================================================================== *)

(** JavaScript strings are represented by their bytes (UTF-8); every
    character the code tests for is ASCII, and an ASCII byte never occurs
    inside a multi-byte sequence. *)

Definition chr (n : nat) : ascii := ascii_of_nat n.
Definition str1 (c : ascii) : string := String c EmptyString.

Definition dq : string := str1 (chr 34).
Definition nl : string := str1 (chr 10).

Definition amp_c : ascii := chr 38.
Definition lt_c : ascii := chr 60.
Definition gt_c : ascii := chr 62.
Definition dq_c : ascii := chr 34.
Definition sq_c : ascii := chr 39.

Fixpoint concat_all (l : list string) : string :=
  match l with
  | [] => EmptyString
  | s :: l' => s ++ concat_all l'
  end.

Definition is_empty_string (s : string) : bool :=
  match s with EmptyString => true | _ => false end.

(** [occurs c s]: the character [c] occurs in [s]. *)
Fixpoint occurs (c : ascii) (s : string) : bool :=
  match s with
  | EmptyString => false
  | String a s' => Ascii.eqb a c || occurs c s'
  end.

(** [starts_with p s]: [p] is a prefix of [s]. *)
Fixpoint starts_with (p s : string) : bool :=
  match p, s with
  | EmptyString, _ => true
  | String a p', String b s' => Ascii.eqb a b && starts_with p' s'
  | String _ _, EmptyString => false
  end.

(* ===================================================================== *)
(** ** JavaScript values and completions *)
(* ===================================================================== *)

Inductive exn := SyntaxError | TypeError.

Inductive completion (A : Type) :=
| Normal (a : A)
| Throw (e : exn).
Arguments Normal {A} a.
Arguments Throw {A} e.

Definition bind {A B} (c : completion A) (k : A -> completion B) : completion B :=
  match c with
  | Normal a => k a
  | Throw e => Throw e
  end.

Declare Scope completion_scope.
Delimit Scope completion_scope with completion.
Notation "x <- c ;; k" := (bind c (fun x => k))
  (at level 61, c at next level, right associativity) : completion_scope.

(** The values [JSON.parse] can produce, plus [undefined] (the value of a
    missing property).  A number is kept as its JSON lexeme: the double it
    denotes is observed only through the two builtins of section
    [JSBuiltins] below. *)
Inductive JSValue :=
| Undefined
| Null
| Bool (b : bool)
| Num (lexeme : string)
| Str (s : string)
| Arr (items : list JSValue)
| Obj (members : list (string * JSValue)).

(** Own property of an object built by [JSON.parse]: with duplicate keys the
    last one wins. *)
Fixpoint own_property (members : list (string * JSValue)) (name : string)
  : option JSValue :=
  match members with
  | [] => None
  | (k, v) :: rest =>
      match own_property rest name with
      | Some v' => Some v'
      | None => if String.eqb k name then Some v else None
      end
  end.

Definition has_own (members : list (string * JSValue)) (name : string) : bool :=
  match own_property members name with Some _ => true | None => false end.

(* ===================================================================== *)
(** ** [JSON.parse] *)
(* ===================================================================== *)

(** The builtin, as ECMA-404 defines the grammar.  [None] stands for the
    [SyntaxError] the builtin throws. *)
Module JSONParser.

Definition code (c : ascii) : nat := nat_of_ascii c.

Definition is_ws (c : ascii) : bool :=
  let n := code c in
  Nat.eqb n 32 || Nat.eqb n 9 || Nat.eqb n 10 || Nat.eqb n 13.

Definition is_digit (c : ascii) : bool :=
  let n := code c in Nat.leb 48 n && Nat.leb n 57.

Fixpoint skip_ws (s : string) : string :=
  match s with
  | String c s' => if is_ws c then skip_ws s' else s
  | EmptyString => s
  end.

Fixpoint drop (n : nat) (s : string) : string :=
  match n, s with
  | S n', String _ s' => drop n' s'
  | _, _ => s
  end.

(** Longest prefix of digits, and the rest. *)
Fixpoint take_digits (s : string) : string * string :=
  match s with
  | String c s' =>
      if is_digit c
      then let (d, r) := take_digits s' in (String c d, r)
      else (EmptyString, s)
  | EmptyString => (EmptyString, s)
  end.

(** [int]: [0] or a non-empty digit string that does not start with [0]. *)
Definition parse_int (s : string) : option (string * string) :=
  match s with
  | String c s' =>
      if Nat.eqb (code c) 48 then Some (str1 c, s')
      else if is_digit c
      then let (d, r) := take_digits s' in Some (String c d, r)
      else None
  | EmptyString => None
  end.

Definition parse_frac (s : string) : option (string * string) :=
  match s with
  | String c s' =>
      if Nat.eqb (code c) 46
      then match take_digits s' with
           | (EmptyString, _) => None
           | (d, r) => Some (String c d, r)
           end
      else Some (EmptyString, s)
  | EmptyString => Some (EmptyString, s)
  end.

Definition parse_exp (s : string) : option (string * string) :=
  match s with
  | String c s' =>
      if Nat.eqb (code c) 101 || Nat.eqb (code c) 69
      then
        let (sign, s2) :=
          match s' with
          | String c2 s2 =>
              if Nat.eqb (code c2) 43 || Nat.eqb (code c2) 45
              then (str1 c2, s2) else (EmptyString, s')
          | EmptyString => (EmptyString, s')
          end in
        match take_digits s2 with
        | (EmptyString, _) => None
        | (d, r) => Some (String c (sign ++ d), r)
        end
      else Some (EmptyString, s)
  | EmptyString => Some (EmptyString, s)
  end.

Definition parse_number (s : string) : option (string * string) :=
  let (sign, s1) :=
    match s with
    | String c s' => if Nat.eqb (code c) 45 then (str1 c, s') else (EmptyString, s)
    | EmptyString => (EmptyString, s)
    end in
  match parse_int s1 with
  | None => None
  | Some (i, s2) =>
      match parse_frac s2 with
      | None => None
      | Some (f, s3) =>
          match parse_exp s3 with
          | None => None
          | Some (e, s4) => Some (sign ++ i ++ f ++ e, s4)
          end
      end
  end.

Definition hex_digit (c : ascii) : option N :=
  let n := code c in
  if Nat.leb 48 n && Nat.leb n 57 then Some (N.of_nat (n - 48))
  else if Nat.leb 97 n && Nat.leb n 102 then Some (N.of_nat (n - 87))
  else if Nat.leb 65 n && Nat.leb n 70 then Some (N.of_nat (n - 55))
  else None.

(** Four hexadecimal digits: the code unit of a [\uXXXX] escape. *)
Definition hex4 (s : string) : option (N * string) :=
  match s with
  | String a (String b (String c (String d r))) =>
      match hex_digit a, hex_digit b, hex_digit c, hex_digit d with
      | Some x, Some y, Some z, Some w =>
          Some (((x * 16 + y) * 16 + z) * 16 + w, r)%N
      | _, _, _, _ => None
      end
  | _ => None
  end.

Definition byte (n : N) : string := str1 (ascii_of_N n).

(** Bytes of a code point (a lone surrogate gets the three-byte form). *)
Definition utf8 (cp : N) : string :=
  (if cp <? 128 then byte cp
   else if cp <? 2048 then byte (192 + cp / 64) ++ byte (128 + cp mod 64)
   else if cp <? 65536 then
     byte (224 + cp / 4096) ++ byte (128 + (cp / 64) mod 64) ++ byte (128 + cp mod 64)
   else
     byte (240 + cp / 262144) ++ byte (128 + (cp / 4096) mod 64)
     ++ byte (128 + (cp / 64) mod 64) ++ byte (128 + cp mod 64))%N.

Definition is_high_surrogate (u : N) : bool := ((55296 <=? u) && (u <=? 56319))%N.
Definition is_low_surrogate (u : N) : bool := ((56320 <=? u) && (u <=? 57343))%N.

(** A [\uXXXX] escape, the [\u] already consumed; a surrogate pair written as
    two escapes is one code point. *)
Definition parse_unicode_escape (s : string) : option (string * string) :=
  match hex4 s with
  | None => None
  | Some (u, r) =>
      if is_high_surrogate u then
        match r with
        | String b (String c r2) =>
            if Nat.eqb (code b) 92 && Nat.eqb (code c) 117 then
              match hex4 r2 with
              | Some (l, r3) =>
                  if is_low_surrogate l
                  then Some (utf8 (65536 + (u - 55296) * 1024 + (l - 56320))%N, r3)
                  else Some (utf8 u, r)
              | None => Some (utf8 u, r)
              end
            else Some (utf8 u, r)
        | _ => Some (utf8 u, r)
        end
      else Some (utf8 u, r)
  end.

(** The characters of a string literal, the opening quote already consumed. *)
Fixpoint parse_chars (fuel : nat) (s : string) : option (string * string) :=
  match fuel with
  | O => None
  | S fuel' =>
      match s with
      | EmptyString => None
      | String c s' =>
          let n := code c in
          if Nat.eqb n 34 then Some (EmptyString, s')
          else if Nat.ltb n 32 then None
          else if Nat.eqb n 92 then
            match s' with
            | EmptyString => None
            | String e s2 =>
                let m := code e in
                let simple (x : nat) :=
                  match parse_chars fuel' s2 with
                  | Some (t, r) => Some (String (chr x) t, r)
                  | None => None
                  end in
                if Nat.eqb m 34 then simple 34
                else if Nat.eqb m 92 then simple 92
                else if Nat.eqb m 47 then simple 47
                else if Nat.eqb m 98 then simple 8
                else if Nat.eqb m 102 then simple 12
                else if Nat.eqb m 110 then simple 10
                else if Nat.eqb m 114 then simple 13
                else if Nat.eqb m 116 then simple 9
                else if Nat.eqb m 117 then
                  match parse_unicode_escape s2 with
                  | Some (u, r) =>
                      match parse_chars fuel' r with
                      | Some (t, r') => Some (u ++ t, r')
                      | None => None
                      end
                  | None => None
                  end
                else None
            end
          else
            match parse_chars fuel' s' with
            | Some (t, r) => Some (String c t, r)
            | None => None
            end
      end
  end.

Fixpoint parse_value (fuel : nat) (s : string) : option (JSValue * string) :=
  match fuel with
  | O => None
  | S fuel' =>
      match skip_ws s with
      | EmptyString => None
      | String c rest as s0 =>
          let n := code c in
          if Nat.eqb n 123 then
            match skip_ws rest with
            | String c2 rest2 as r =>
                if Nat.eqb (code c2) 125 then Some (Obj [], rest2)
                else match parse_members fuel' r [] with
                     | Some (m, r') => Some (Obj m, r')
                     | None => None
                     end
            | EmptyString => None
            end
          else if Nat.eqb n 91 then
            match skip_ws rest with
            | String c2 rest2 as r =>
                if Nat.eqb (code c2) 93 then Some (Arr [], rest2)
                else match parse_items fuel' r [] with
                     | Some (l, r') => Some (Arr l, r')
                     | None => None
                     end
            | EmptyString => None
            end
          else if Nat.eqb n 34 then
            match parse_chars (String.length rest) rest with
            | Some (t, r) => Some (Str t, r)
            | None => None
            end
          else if starts_with "null" s0 then Some (Null, drop 4 s0)
          else if starts_with "true" s0 then Some (Bool true, drop 4 s0)
          else if starts_with "false" s0 then Some (Bool false, drop 5 s0)
          else
            match parse_number s0 with
            | Some (lex, r) => Some (Num lex, r)
            | None => None
            end
      end
  end

with parse_items (fuel : nat) (s : string) (acc : list JSValue)
  : option (list JSValue * string) :=
  match fuel with
  | O => None
  | S fuel' =>
      match parse_value fuel' s with
      | None => None
      | Some (v, r) =>
          match skip_ws r with
          | String c r' =>
              if Nat.eqb (code c) 44 then parse_items fuel' r' (v :: acc)
              else if Nat.eqb (code c) 93 then Some (rev (v :: acc), r')
              else None
          | EmptyString => None
          end
      end
  end

with parse_members (fuel : nat) (s : string) (acc : list (string * JSValue))
  : option (list (string * JSValue) * string) :=
  match fuel with
  | O => None
  | S fuel' =>
      match skip_ws s with
      | String q s1 =>
          if Nat.eqb (code q) 34 then
            match parse_chars (String.length s1) s1 with
            | None => None
            | Some (k, s2) =>
                match skip_ws s2 with
                | String c s3 =>
                    if Nat.eqb (code c) 58 then
                      match parse_value fuel' s3 with
                      | None => None
                      | Some (v, r) =>
                          match skip_ws r with
                          | String c2 r' =>
                              if Nat.eqb (code c2) 44
                              then parse_members fuel' r' ((k, v) :: acc)
                              else if Nat.eqb (code c2) 125
                              then Some (rev ((k, v) :: acc), r')
                              else None
                          | EmptyString => None
                          end
                      end
                    else None
                | EmptyString => None
                end
            end
          else None
      | EmptyString => None
      end
  end.

End JSONParser.

Definition JSON_parse (text : string) : completion JSValue :=
  match JSONParser.parse_value (2 * String.length text + 2) text with
  | Some (v, rest) =>
      if is_empty_string (JSONParser.skip_ws rest) then Normal v
      else Throw SyntaxError
  | None => Throw SyntaxError
  end.

(* ===================================================================== *)
(** ** Meta Lead Account List form *)
(* ===================================================================== *)

Module MetaLeadAccountList.

Local Open Scope completion_scope.

(** [s.replace(/c/g, rep)] for a one-character pattern [c]. *)
Fixpoint replace_all (c : ascii) (rep : string) (s : string) : string :=
  match s with
  | EmptyString => EmptyString
  | String a s' =>
      if Ascii.eqb a c then rep ++ replace_all c rep s'
      else String a (replace_all c rep s')
  end.

(** [escape_html(str)], [str] already converted by [String(str)]. *)
Definition escape_html (str : string) : string :=
  replace_all sq_c "&#39;"
    (replace_all dq_c "&quot;"
       (replace_all gt_c "&gt;"
          (replace_all lt_c "&lt;"
             (replace_all amp_c "&amp;" str)))).

(** The five entities [escape_html] writes. *)
Definition entities : list string :=
  ["&amp;"; "&lt;"; "&gt;"; "&quot;"; "&#39;"].

(** What [escape_html] makes of one character. *)
Definition escape_char (a : ascii) : string :=
  if Ascii.eqb a amp_c then "&amp;"
  else if Ascii.eqb a lt_c then "&lt;"
  else if Ascii.eqb a gt_c then "&gt;"
  else if Ascii.eqb a dq_c then "&quot;"
  else if Ascii.eqb a sq_c then "&#39;"
  else str1 a.

(** [s] begins with one of the five entities. *)
Definition entity_at (s : string) : bool :=
  existsb (fun e => starts_with e s) entities.

(** Every ampersand of [s] begins an entity. *)
Fixpoint amps_are_entities (s : string) : bool :=
  match s with
  | EmptyString => true
  | String a s' =>
      (if Ascii.eqb a amp_c then entity_at s else true) && amps_are_entities s'
  end.

(** None of the four markup characters occurs in [s]. *)
Definition markup_free (s : string) : bool :=
  negb (occurs lt_c s) && negb (occurs gt_c s)
  && negb (occurs dq_c s) && negb (occurs sq_c s).

Section JSBuiltins.

(** The two observations the code makes of a JSON number, both defined on
    IEEE doubles by the language: whether it is non-zero (truthiness) and
    its [Number::toString] text. *)
Variable Number_nonzero : string -> bool.
Variable Number_toString : string -> string.

Definition truthy (v : JSValue) : bool :=
  match v with
  | Undefined | Null => false
  | Bool b => b
  | Num n => Number_nonzero n
  | Str s => negb (is_empty_string s)
  | Arr _ | Obj _ => true
  end.

(** [a || b] *)
Definition or_else (a b : JSValue) : JSValue := if truthy a then a else b.

(** [Array.prototype.join]: [null] and [undefined] elements give the empty
    string, the others are converted by [to_s]. *)
Definition join_with (to_s : JSValue -> completion string) (sep : string)
  : list JSValue -> completion string :=
  fix go (l : list JSValue) : completion string :=
    match l with
    | [] => Normal EmptyString
    | x :: rest =>
        first <- match x with
                 | Undefined | Null => Normal EmptyString
                 | _ => to_s x
                 end ;;
        match rest with
        | [] => Normal first
        | _ :: _ => others <- go rest ;; Normal (first ++ sep ++ others)
        end
    end.

(** [String(v)] and template interpolation.  An array converts through
    [join(",")]; a parsed object converts through [Object.prototype.toString]
    unless an own [toString] member (never callable) shadows it, in which
    case the conversion throws. *)
Fixpoint ToString (v : JSValue) : completion string :=
  match v with
  | Undefined => Normal "undefined"
  | Null => Normal "null"
  | Bool true => Normal "true"
  | Bool false => Normal "false"
  | Num n => Normal (Number_toString n)
  | Str s => Normal s
  | Arr items => join_with ToString "," items
  | Obj members =>
      if has_own members "toString" then Throw TypeError
      else Normal "[object Object]"
  end.

(** [r.name] for the member names this file reads ([page_name], [category],
    [business_name], [city], [country], [tasks]); none of them is defined on
    a builtin prototype. *)
Definition get_member (r : JSValue) (name : string) : completion JSValue :=
  match r with
  | Undefined | Null => Throw TypeError
  | Obj members =>
      match own_property members name with
      | Some v => Normal v
      | None => Normal Undefined
      end
  | Bool _ | Num _ | Str _ | Arr _ => Normal Undefined
  end.

(** [String(r.name || '')], the conversion [escape_html] starts with. *)
Definition cell_text (r : JSValue) (name : string) : completion string :=
  v <- get_member r name ;;
  ToString (or_else v (Str EmptyString)).

(** [escape_html(r.name || '')] *)
Definition escaped_cell (r : JSValue) (name : string) : completion string :=
  s <- cell_text r name ;;
  Normal (escape_html s).

(** [Array.isArray(r.tasks) ? r.tasks.join(', ') : (r.tasks || '')],
    interpolated. *)
Definition tasks_cell (r : JSValue) : completion string :=
  t <- get_member r "tasks" ;;
  match t with
  | Arr items => join_with ToString ", " items
  | _ => ToString (or_else t (Str EmptyString))
  end.

Definition indent (n : nat) : string := string_of_list_ascii (repeat (chr 32) n).

(** The row template with its six interpolated cells. *)
Definition row_template (c1 c2 c3 c4 c5 c6 : string) : string :=
  concat_all
    [ nl; indent 8; "<tr>"; nl;
      indent 12; "<td>"; c1; "</td>"; nl;
      indent 12; "<td>"; c2; "</td>"; nl;
      indent 12; "<td>"; c3; "</td>"; nl;
      indent 12; "<td>"; c4; "</td>"; nl;
      indent 12; "<td>"; c5; "</td>"; nl;
      indent 12; "<td>"; c6; "</td>"; nl;
      indent 8; "</tr>"; nl;
      indent 4 ].

(** The arrow function given to [rows.map]. *)
Definition render_row (r : JSValue) : completion string :=
  c1 <- escaped_cell r "page_name" ;;
  c2 <- escaped_cell r "category" ;;
  c3 <- escaped_cell r "business_name" ;;
  c4 <- escaped_cell r "city" ;;
  c5 <- escaped_cell r "country" ;;
  c6 <- tasks_cell r ;;
  Normal (row_template c1 c2 c3 c4 c5 c6).

Fixpoint map_rows (l : list JSValue) : completion (list string) :=
  match l with
  | [] => Normal []
  | r :: rest =>
      h <- render_row r ;;
      t <- map_rows rest ;;
      Normal (h :: t)
  end.

(** [!rows.length] *)
Definition length_is_falsy (rows : JSValue) : completion bool :=
  match rows with
  | Undefined | Null => Throw TypeError
  | Arr items => Normal (match items with [] => true | _ => false end)
  | Str s => Normal (is_empty_string s)
  | Obj members =>
      match own_property members "length" with
      | Some v => Normal (negb (truthy v))
      | None => Normal true
      end
  | Bool _ | Num _ => Normal true
  end.

(** [rows.map(r => ...)]: only an array has a callable [map]. *)
Definition rows_map (rows : JSValue) : completion (list string) :=
  match rows with
  | Arr items => map_rows items
  | _ => Throw TypeError
  end.

Definition header : list string :=
  ["Page Name"; "Category"; "Business"; "City"; "Country"; "Tasks"].

Definition thead : string :=
  "<thead><tr>"
  ++ concat_all (map (fun h => "<th>" ++ h ++ "</th>") header)
  ++ "</tr></thead>".

Definition invalid_json_html : string :=
  "<div class=" ++ dq ++ "text-muted" ++ dq ++ ">Invalid accounts JSON</div>".

Definition empty_state_html : string :=
  "<div class=" ++ dq ++ "text-muted" ++ dq
  ++ ">Henüz hesap yok. Sync Accounts ile getiriniz.</div>".

Definition table_html (tbody : string) : string :=
  "<div class=" ++ dq ++ "table-responsive" ++ dq ++ "><table class=" ++ dq
  ++ "table table-bordered" ++ dq ++ " style=" ++ dq ++ "margin-top:8px;" ++ dq
  ++ ">" ++ thead ++ tbody ++ "</table></div>".

(** [frm]: the document's [accounts_json] field ([None] when the field is
    unset) and the [innerHTML] of the [accounts_html] wrapper. *)
Record Form := {
  accounts_json : option string;
  innerHTML : string
}.

(** [frm.doc.accounts_json || '[]'] *)
Definition raw_of (frm : Form) : string :=
  match accounts_json frm with
  | Some s => if is_empty_string s then "[]" else s
  | None => "[]"
  end.

Definition set_innerHTML (frm : Form) (html : string) : Form :=
  {| accounts_json := accounts_json frm; innerHTML := html |}.

(** [render_accounts_table(frm)]: how the call completes, and the form
    afterwards.  An exception leaves the call at the point it is thrown. *)
Definition render_accounts_table (frm : Form) : completion unit * Form :=
  let raw := raw_of frm in
  match JSON_parse raw with
  | Throw _ => (Normal tt, set_innerHTML frm invalid_json_html)
  | Normal rows =>
      match length_is_falsy rows with
      | Throw e => (Throw e, frm)
      | Normal true => (Normal tt, set_innerHTML frm empty_state_html)
      | Normal false =>
          match rows_map rows with
          | Throw e => (Throw e, frm)
          | Normal trs =>
              let tbody := "<tbody>" ++ concat_all trs ++ "</tbody>" in
              (Normal tt, set_innerHTML frm (table_html tbody))
          end
      end
  end.

End JSBuiltins.

(** A row whose page name carries markup. *)
Definition sample_row : JSValue :=
  Obj [("page_name", Str "<b>Tom & Co</b>"); ("category", Str "Caf'e");
       ("tasks", Arr [Str "MANAGE"; Str "ADVERTISE"])].

End MetaLeadAccountList.

(* ===================================================================== *)
(** ** Number arithmetic on time values *)
(* ===================================================================== *)

(** The Number operations the settings form applies to time values:
    subtraction, division and [Math.floor], with the rounding of IEEE 754
    doubles (53 significant bits, nearest, ties to even) written out on
    integers.  The exponent is not bounded: time values are integers of
    magnitude at most 8.64e15, which doubles hold exactly, and no quotient
    of their differences comes near the limits of the exponent range. *)
Module Double.

Local Open Scope Z_scope.

(** A finite double: [significand * 2 ^ exponent]. *)
Record double := { significand : Z; exponent : Z }.

(** [floor(log2(n / d))] for positive [n] and [d]. *)
Definition ilog2 (n d : Z) : Z :=
  let l := Z.log2 n - Z.log2 d in
  if 0 <=? l then (if d * 2 ^ l <=? n then l else l - 1)
  else (if d <=? n * 2 ^ (- l) then l else l - 1).

(** The integer nearest to [num / den], the even one of two that are equally
    near. *)
Definition round_half_even (num den : Z) : Z :=
  let q := num / den in
  match 2 * (num mod den) ?= den with
  | Lt => q
  | Gt => q + 1
  | Eq => if Z.even q then q else q + 1
  end.

(** The double nearest to the ratio [n / d], for [d] positive: the ratio is
    scaled to 53 bits, rounded, and scaled back. *)
Definition nearest (n d : Z) : double :=
  if n =? 0 then {| significand := 0; exponent := 0 |}
  else
    let a := Z.abs n in
    let e := ilog2 a d - 52 in
    let m := if e <=? 0 then round_half_even (a * 2 ^ (- e)) d
             else round_half_even a (d * 2 ^ e) in
    {| significand := Z.sgn n * m; exponent := e |}.

(** [Math.floor(x)] *)
Definition Math_floor (x : double) : Z :=
  if 0 <=? exponent x then significand x * 2 ^ exponent x
  else significand x / 2 ^ (- exponent x).

(** [a - b] on two doubles that hold integers: the nearest double to the
    difference, an integer again. *)
Definition sub (a b : Z) : Z := Math_floor (nearest (a - b) 1).

(** [a / b] on two doubles that hold integers, [b] positive. *)
Definition div (a b : Z) : double := nearest a b.

End Double.

(* ===================================================================== *)
(** ** Facebook Lead Ads Settings form *)
(* ===================================================================== *)

Module FacebookLeadAdsSettings.

Local Open Scope Z_scope.

(** What [new Date(x)] holds: a time value, an integer number of
    milliseconds of magnitude at most 8.64e15, or NaN. *)
Inductive DateValue :=
| InvalidDate
| TimeValue (ms : Z).

(** The fields of the settings document the form script reads or writes.
    A text field that is unset is the empty string (both are falsy);
    [token_expiry] is [None] when unset and otherwise what [new Date] reads
    from it. *)
Record Doc := {
  enabled : bool;
  app_id : string;
  access_token : string;
  webhook_callback_url : string;
  webhook_verify_token : string;
  token_expiry : option DateValue;
  authorization_url : string;
  access_token_url : string
}.

Definition set_authorization_url (d : Doc) (v : string) : Doc :=
  {| enabled := enabled d; app_id := app_id d; access_token := access_token d;
     webhook_callback_url := webhook_callback_url d;
     webhook_verify_token := webhook_verify_token d;
     token_expiry := token_expiry d;
     authorization_url := v; access_token_url := access_token_url d |}.

Definition set_access_token_url (d : Doc) (v : string) : Doc :=
  {| enabled := enabled d; app_id := app_id d; access_token := access_token d;
     webhook_callback_url := webhook_callback_url d;
     webhook_verify_token := webhook_verify_token d;
     token_expiry := token_expiry d;
     authorization_url := authorization_url d; access_token_url := v |}.

Definition nonempty (s : string) : bool := negb (is_empty_string s).

(** *** Replies of the server methods the form calls *)

(** A number-valued member of a reply: missing, [null], or a number. *)
Inductive Member :=
| Missing
| IsNull
| Number (n : Z).

(** [r.message] of [oauth.get_token_info]; the flags are the truthiness of
    the members. *)
Record TokenInfo := {
  has_token : bool;
  is_expired : bool;
  expires_in_days : Member;
  expires_in_seconds : Member;
  is_long_lived : bool
}.

(** [r.message] of [oauth.get_authorization_url] and [oauth.refresh_token]. *)
Record AuthorizationReply := {
  reply_authorization_url : string;
  redirect_uri : string
}.

(** [r.message] of the document method [regenerate_verify_token]. *)
Record RegenerateReply := {
  reply_message : string
}.

(** *** User-visible text *)

Inductive Arg :=
| ArgNumber (n : Z)
| ArgNaN
| ArgMember (m : Member)
| ArgString (s : string).

(** [__(template, args)] *)
Record Text := T { template : string; args : list Arg }.

(** Text assembled with [+]: translated pieces and literal ones. *)
Inductive Piece :=
| Tr (t : Text)
| Lit (s : string).

Definition Message := list Piece.

(** *** What a handler does to the page *)

(** The functions the script attaches to buttons. *)
Inductive Action :=
| AuthorizeFacebook
| CheckTokenStatus
| TestCallbackUrl
| RefreshToken
| CopyCallbackUrl
| CopyVerifyToken
| RegenerateVerifyToken.

(** [width=..,height=..,left=..,top=..,toolbar=no,menubar=no] *)
Record Features := {
  width : Z;
  height : Z;
  left : Q;
  top : Q
}.

Inductive Effect :=
| add_custom_button (label : Text) (on_click : Action) (group : Text)
| add_indicator (label : Text) (color : string)
| set_headline_alert (text : Text) (color : string)
| set_value (fieldname value : string)
| call (method : string)
| msgprint (title : option Text) (message : Message)
    (indicator : option string) (primary_action : option Text)
| show_alert (message : Message) (indicator : string)
| confirm (message : Text)
| window_open (url : string) (name : string) (features : Features)
| set_location_href (url : string)
| clipboard_writeText (text : string)
| reload_doc
| console_log (label : string).

(** What the page's surroundings answer while a handler runs. *)
Record Env := {
  now : Z;                                   (* [new Date()], milliseconds *)
  confirmed : bool;                          (* the operator's answer to [creqit.confirm] *)
  primary_action_clicked : bool;             (* the dialog's primary button is pressed *)
  authorization_reply : option AuthorizationReply;
  token_info_reply : option TokenInfo;
  regenerate_reply : option RegenerateReply;
  client_get_reply : option Doc;             (* [r2.message] of [creqit.client.get] *)
  stored_doc : Doc;                          (* the document [reload_doc] fetches *)
  clipboard_error : option string;           (* [writeText] rejected with this error *)
  screen_width : Z;
  screen_height : Z;
  origin : string                            (* [window.location.origin] *)
}.

(** A handler: from the form's document to its result, the document
    afterwards and the effects in order. *)
Definition UI (A : Type) : Type := Doc -> A * Doc * list Effect.

Definition ret {A} (a : A) : UI A := fun d => (a, d, []).

Definition ui_bind {A B} (m : UI A) (k : A -> UI B) : UI B :=
  fun d =>
    let '(a, d1, t1) := m d in
    let '(b, d2, t2) := k a d1 in
    (b, d2, (t1 ++ t2)%list).

Declare Scope ui_scope.
Delimit Scope ui_scope with ui.
Notation "x <- c ;; k" := (ui_bind c (fun x => k))
  (at level 61, c at next level, right associativity) : ui_scope.
Notation "c ;; k" := (ui_bind c (fun _ => k))
  (at level 61, right associativity) : ui_scope.
Local Open Scope ui_scope.

Definition emit (e : Effect) : UI unit := fun d => (tt, d, [e]).
Definition get_doc : UI Doc := fun d => (d, d, []).
Definition put_doc (d' : Doc) : UI unit := fun _ => (tt, d', []).
Definition when (b : bool) (m : UI unit) : UI unit := if b then m else ret tt.

Definition doc_after {A} (m : UI A) (d : Doc) : Doc := snd (fst (m d)).
Definition effects_of {A} (m : UI A) (d : Doc) : list Effect := snd (m d).

Definition t_ (s : string) : Text := T s [].
Definition oauth2 : Text := t_ "OAuth2".
Definition webhook : Text := t_ "Webhook".

Definition ms_per_day : Z := 1000 * 60 * 60 * 24.

(** [Math.floor((expiry - now) / (1000 * 60 * 60 * 24))] on the time values
    of the two dates, in the arithmetic of doubles; [None] is NaN, which an
    invalid date gives. *)
Definition days_remaining (expiry : DateValue) (now : Z) : option Z :=
  match expiry with
  | InvalidDate => None
  | TimeValue e =>
      Some (Double.Math_floor (Double.div (Double.sub e now) ms_per_day))
  end.

Definition arg_of_days (d : option Z) : Arg :=
  match d with Some n => ArgNumber n | None => ArgNaN end.

(** [n < k] on a number that may be NaN. *)
Definition lt_num (d : option Z) (k : Z) : bool :=
  match d with Some n => n <? k | None => false end.

(** The [refresh] form event. *)
Definition refresh (env : Env) : UI unit :=
  frm_doc <- get_doc ;;
  when (enabled frm_doc && nonempty (app_id frm_doc))
    (emit (add_custom_button (t_ "Authorize with Facebook") AuthorizeFacebook oauth2) ;;
     emit (add_custom_button (t_ "Check Token Status") CheckTokenStatus oauth2) ;;
     emit (add_custom_button (t_ "Test Callback URL") TestCallbackUrl oauth2) ;;
     when (nonempty (access_token frm_doc))
       (emit (add_custom_button (t_ "Refresh Token") RefreshToken oauth2)) ;;
     when (nonempty (webhook_callback_url frm_doc))
       (emit (add_custom_button (t_ "Copy Callback URL") CopyCallbackUrl webhook) ;;
        emit (add_custom_button (t_ "Copy Verify Token") CopyVerifyToken webhook) ;;
        emit (add_custom_button (t_ "Regenerate Verify Token")
                RegenerateVerifyToken webhook))) ;;
  match token_expiry frm_doc with
  | Some expiry =>
      let days := days_remaining expiry (now env) in
      if lt_num days 0 then
        emit (add_indicator (t_ "Token Expired") "red") ;;
        emit (set_headline_alert
                (t_ "Access token has expired. Please authorize again.") "red")
      else if lt_num days 7 then
        emit (add_indicator (T "Token Expiring Soon ({0} days)" [arg_of_days days])
                "orange")
      else
        emit (add_indicator (T "Token Valid ({0} days)" [arg_of_days days]) "green")
  | None =>
      when (nonempty (access_token frm_doc))
        (emit (add_indicator (t_ "Token Active") "green"))
  end.

(** [frm.set_value(fieldname, value)] for the two fields the script sets. *)
Definition frm_set_authorization_url (v : string) : UI unit :=
  d <- get_doc ;;
  put_doc (set_authorization_url d v) ;;
  emit (set_value "authorization_url" v).

Definition frm_set_access_token_url (v : string) : UI unit :=
  d <- get_doc ;;
  put_doc (set_access_token_url d v) ;;
  emit (set_value "access_token_url" v).

(** The [app_id] field event. *)
Definition on_app_id : UI unit :=
  d <- get_doc ;;
  when (nonempty (app_id d) && negb (nonempty (authorization_url d)))
    (frm_set_authorization_url "https://www.facebook.com/v24.0/dialog/oauth") ;;
  d <- get_doc ;;
  when (nonempty (app_id d) && negb (nonempty (access_token_url d)))
    (frm_set_access_token_url "https://graph.facebook.com/v24.0/oauth/access_token").

Definition popup (env : Env) (w h : Z) : Features :=
  {| width := w; height := h;
     left := (inject_Z (screen_width env - w) / inject_Z 2)%Q;
     top := (inject_Z (screen_height env - h) / inject_Z 2)%Q |}.

Definition authorize_facebook (env : Env) : UI unit :=
  emit (call "creqit.meta.FacebookLeadAds.oauth.get_authorization_url") ;;
  match authorization_reply env with
  | Some r =>
      when (nonempty (reply_authorization_url r))
        (let auth_url := reply_authorization_url r in
         emit (msgprint (Some (t_ "Facebook Authorization"))
                 [ Tr (t_ "You will be redirected to Facebook to authorize the application.");
                   Lit "<br><br>"; Lit "<strong>"; Tr (t_ "Redirect URI:");
                   Lit "</strong><br>";
                   Lit ("<code style=" ++ dq
                        ++ "background: #f5f5f5; padding: 5px; display: block; margin: 5px 0;"
                        ++ dq ++ ">");
                   Lit (redirect_uri r); Lit "</code><br>";
                   Lit ("<small style=" ++ dq ++ "color: #666;" ++ dq ++ ">");
                   Tr (t_ "Make sure this URL is added to your Facebook App settings.");
                   Lit "</small>" ]
                 None (Some (t_ "Authorize Now"))) ;;
         when (primary_action_clicked env)
           (emit (window_open auth_url "Facebook Authorization" (popup env 600 700))))
  | None => ret tt
  end.

Definition expired_text : Text := t_ "Token has expired. Please re-authorize.".

Definition long_lived_text : Text :=
  t_ ("✅ Token is active (long-lived token, no expiry)<br><small style="
      ++ dq ++ "color: #666;" ++ dq
      ++ ">This is normal for some Facebook tokens.</small>").

(** [m < k]: [null] compares as zero, a missing member as NaN. *)
Definition member_lt (m : Member) (k : Z) : bool :=
  match m with
  | Number n => n <? k
  | IsNull => 0 <? k
  | Missing => false
  end.

(** The message and indicator [check_token_status] shows for a reply: the
    branches of the callback, in their order. *)
Definition token_status_message (status : TokenInfo) : Text * string :=
  if negb (has_token status) then
    (t_ "No access token configured", "red")
  else if is_expired status then (expired_text, "red")
  else
    match expires_in_days status with
    | Missing =>
        if is_long_lived status then (long_lived_text, "green")
        else (t_ "Token is active", "green")
    | days =>
        (T "Token is valid. Expires in {0} days ({1} seconds)"
           [ArgMember days; ArgMember (expires_in_seconds status)],
         if member_lt days 7 then "orange" else "green")
    end.

Definition check_token_status (env : Env) : UI unit :=
  emit (call "creqit.meta.FacebookLeadAds.oauth.get_token_info") ;;
  match token_info_reply env with
  | Some status =>
      let (message, indicator) := token_status_message status in
      emit (msgprint (Some (t_ "Token Status")) [Tr message] (Some indicator) None)
  | None => ret tt
  end.

Definition refresh_question : Text :=
  t_ "This will redirect you to Facebook to re-authorize. Continue?".

Definition refresh_token (env : Env) : UI unit :=
  emit (confirm refresh_question) ;;
  when (confirmed env)
    (emit (call "creqit.meta.FacebookLeadAds.oauth.refresh_token") ;;
     match authorization_reply env with
     | Some r =>
         when (nonempty (reply_authorization_url r))
           (emit (set_location_href (reply_authorization_url r)))
     | None => ret tt
     end).

Definition test_callback_url (env : Env) : UI unit :=
  let site_url := origin env in
  let test_url := site_url ++ "/api/method/creqit.meta.FacebookLeadAds.oauth.test_callback" in
  emit (window_open test_url "Callback URL Test" (popup env 800 700)).

Definition copy_to_clipboard (env : Env) (text label : string) : UI unit :=
  emit (clipboard_writeText text) ;;
  match clipboard_error env with
  | None =>
      emit (show_alert [Tr (T "{0} copied to clipboard!" [ArgString label])] "green")
  | Some err =>
      emit (msgprint None [Tr (T "Failed to copy: {0}" [ArgString err])] None None)
  end.

Definition regenerate_question : Text :=
  t_ "This will generate a new verify token. You will need to update it in Facebook. Continue?".

Definition regenerate_verify_token (env : Env) : UI unit :=
  emit (confirm regenerate_question) ;;
  when (confirmed env)
    (emit (call "regenerate_verify_token") ;;
     match regenerate_reply env with
     | Some r =>
         emit (show_alert [Lit (reply_message r)] "orange") ;;
         emit reload_doc ;;
         put_doc (stored_doc env)
     | None => ret tt
     end).

(** [window.debug_facebook_token], the console helper: two calls and their
    logs; reading [r2.message.access_token] of a missing message throws and
    ends the callback before the last log. *)
Definition debug_facebook_token (env : Env) : UI unit :=
  emit (call "creqit.meta.FacebookLeadAds.oauth.get_token_info") ;;
  emit (console_log "Token Info:") ;;
  emit (call "creqit.client.get") ;;
  emit (console_log "Settings Document:") ;;
  match client_get_reply env with
  | Some _ => emit (console_log "Has access_token field:")
  | None => ret tt
  end.

(** What a click on a button runs. *)
Definition click (env : Env) (a : Action) : UI unit :=
  match a with
  | AuthorizeFacebook => authorize_facebook env
  | CheckTokenStatus => check_token_status env
  | TestCallbackUrl => test_callback_url env
  | RefreshToken => refresh_token env
  | CopyCallbackUrl =>
      d <- get_doc ;; copy_to_clipboard env (webhook_callback_url d) "Callback URL"
  | CopyVerifyToken =>
      d <- get_doc ;; copy_to_clipboard env (webhook_verify_token d) "Verify Token"
  | RegenerateVerifyToken => regenerate_verify_token env
  end.

(** The effects that write to the form's dashboard. *)
Definition is_dashboard (e : Effect) : bool :=
  match e with
  | add_indicator _ _ | set_headline_alert _ _ => true
  | _ => false
  end.

Definition dashboard (l : list Effect) : list Effect := filter is_dashboard l.

(** The effects through which a handler could change the verify token: a
    request to regenerate it, a write to the field, a reload of the
    document. *)
Definition touches_verify_token (e : Effect) : bool :=
  match e with
  | call method => String.eqb method "regenerate_verify_token"
  | set_value fieldname _ => String.eqb fieldname "webhook_verify_token"
  | reload_doc => true
  | _ => false
  end.

(** A settings document and surroundings to run the handlers in: an enabled
    app whose token expired ten seconds ago, an operator who declines. *)
Definition sample_doc : Doc :=
  {| enabled := true; app_id := "1234567890"; access_token := "EAAB";
     webhook_callback_url := "https://example.test/api/method/creqit.meta.FacebookLeadAds.webhook.handle_webhook";
     webhook_verify_token := "4f1c2d"; token_expiry := Some (TimeValue 1699999990000);
     authorization_url := EmptyString; access_token_url := EmptyString |}.

Definition declining_env : Env :=
  {| now := 1700000000000; confirmed := false; primary_action_clicked := false;
     authorization_reply :=
       Some {| reply_authorization_url := "https://www.facebook.com/v24.0/dialog/oauth?client_id=1234567890";
               redirect_uri := "https://example.test/api/method/creqit.meta.FacebookLeadAds.oauth.callback" |};
     token_info_reply := None;
     regenerate_reply := Some {| reply_message := "Verify token regenerated" |};
     client_get_reply := None;
     stored_doc :=
       {| enabled := true; app_id := "1234567890"; access_token := "EAAB";
          webhook_callback_url := "https://example.test/api/method/creqit.meta.FacebookLeadAds.webhook.handle_webhook";
          webhook_verify_token := "a9e07b"; token_expiry := None;
          authorization_url := EmptyString; access_token_url := EmptyString |};
     clipboard_error := None; screen_width := 1920; screen_height := 1080;
     origin := "https://example.test" |}.

Definition confirming_env : Env :=
  {| now := now declining_env; confirmed := true;
     primary_action_clicked := true;
     authorization_reply := authorization_reply declining_env;
     token_info_reply := token_info_reply declining_env;
     regenerate_reply := regenerate_reply declining_env;
     client_get_reply := None;
     stored_doc := stored_doc declining_env;
     clipboard_error := None; screen_width := 1920; screen_height := 1080;
     origin := origin declining_env |}.

(** Everything the form script defines: the two form events, the button
    callbacks and the console helper. *)
Inductive Handler :=
| OnRefresh
| OnAppId
| OnClick (a : Action)
| DebugFacebookToken.

Definition run (env : Env) (h : Handler) : UI unit :=
  match h with
  | OnRefresh => refresh env
  | OnAppId => on_app_id
  | OnClick a => click env a
  | DebugFacebookToken => debug_facebook_token env
  end.

End FacebookLeadAdsSettings.

(* ===================================================================== *)
(** ** SHA-256 and HMAC (FIPS 180-4, RFC 2104) *)
(* ===================================================================== *)

(** The digest the signature gate of the webhook receiver is specified
    with.  Words are 32-bit integers in [Z] with the wrap-around written
    out; octets are integers below 256. *)
Module HMAC_SHA256.

Local Open Scope Z_scope.

Definition mask32 : Z := 4294967295.
Definition wrap (x : Z) : Z := Z.land x mask32.
Definition plus32 (x y : Z) : Z := wrap (x + y).
Definition rot_right (n x : Z) : Z :=
  Z.lor (Z.shiftr x n) (wrap (Z.shiftl x (32 - n))).
Definition not32 (x : Z) : Z := Z.lxor x mask32.

Definition choose (e f g : Z) : Z := Z.lxor (Z.land e f) (Z.land (not32 e) g).
Definition majority (a b c : Z) : Z :=
  Z.lxor (Z.lxor (Z.land a b) (Z.land a c)) (Z.land b c).
Definition big_sigma0 (a : Z) : Z :=
  Z.lxor (Z.lxor (rot_right 2 a) (rot_right 13 a)) (rot_right 22 a).
Definition big_sigma1 (e : Z) : Z :=
  Z.lxor (Z.lxor (rot_right 6 e) (rot_right 11 e)) (rot_right 25 e).
Definition small_sigma0 (x : Z) : Z :=
  Z.lxor (Z.lxor (rot_right 7 x) (rot_right 18 x)) (Z.shiftr x 3).
Definition small_sigma1 (x : Z) : Z :=
  Z.lxor (Z.lxor (rot_right 17 x) (rot_right 19 x)) (Z.shiftr x 10).

Definition round_constants : list Z :=
  [ 1116352408; 1899447441; 3049323471; 3921009573; 961987163; 1508970993;
    2453635748; 2870763221; 3624381080; 310598401; 607225278; 1426881987;
    1925078388; 2162078206; 2614888103; 3248222580; 3835390401; 4022224774;
    264347078; 604807628; 770255983; 1249150122; 1555081692; 1996064986;
    2554220882; 2821834349; 2952996808; 3210313671; 3336571891; 3584528711;
    113926993; 338241895; 666307205; 773529912; 1294757372; 1396182291;
    1695183700; 1986661051; 2177026350; 2456956037; 2730485921; 2820302411;
    3259730800; 3345764771; 3516065817; 3600352804; 4094571909; 275423344;
    430227734; 506948616; 659060556; 883997877; 958139571; 1322822218;
    1537002063; 1747873779; 1955562222; 2024104815; 2227730452; 2361852424;
    2428436474; 2756734187; 3204031479; 3329325298 ].

Record Chaining := {
  ha : Z; hb : Z; hc : Z; hd : Z; he : Z; hf : Z; hg : Z; hh : Z
}.

Definition initial_hash : Chaining :=
  {| ha := 1779033703; hb := 3144134277; hc := 1013904242; hd := 2773480762;
     he := 1359893119; hf := 2600822924; hg := 528734635; hh := 1541459225 |}.

(** The message, a single one bit, zero bits up to 56 modulo 64 octets, and
    the bit length on eight octets. *)
Fixpoint big_endian (width : nat) (x : Z) : list Z :=
  match width with
  | O => []
  | S w => Z.land (Z.shiftr x (8 * Z.of_nat w)) 255 :: big_endian w x
  end.

Definition pad (msg : list Z) : list Z :=
  let len := Z.of_nat (List.length msg) in
  let zeros := Z.to_nat ((55 - len) mod 64) in
  (msg ++ 128 :: repeat 0 zeros ++ big_endian 8 (8 * len))%list.

Fixpoint words_of (fuel : nat) (octets : list Z) : list Z :=
  match fuel, octets with
  | S fuel', a :: b :: c :: d :: rest =>
      (Z.shiftl a 24 + Z.shiftl b 16 + Z.shiftl c 8 + d) :: words_of fuel' rest
  | _, _ => []
  end.

(** Extends the sixteen words of a block to the sixty-four of the schedule;
    [recent] holds the sixteen latest words, oldest first. *)
Fixpoint extend (steps : nat) (recent : list Z) : list Z :=
  match steps with
  | O => []
  | S steps' =>
      let w16 := nth 0 recent 0 in
      let w15 := nth 1 recent 0 in
      let w7 := nth 9 recent 0 in
      let w2 := nth 14 recent 0 in
      let w := plus32 (plus32 (small_sigma1 w2) w7) (plus32 (small_sigma0 w15) w16) in
      w :: extend steps' (tl recent ++ [w])%list
  end.

Definition schedule (block : list Z) : list Z := (block ++ extend 48 block)%list.

Definition round (h : Chaining) (kw : Z * Z) : Chaining :=
  let (k, w) := kw in
  let t1 := plus32 (plus32 (plus32 (hh h) (big_sigma1 (he h)))
                      (plus32 (choose (he h) (hf h) (hg h)) k)) w in
  let t2 := plus32 (big_sigma0 (ha h)) (majority (ha h) (hb h) (hc h)) in
  {| ha := plus32 t1 t2; hb := ha h; hc := hb h; hd := hc h;
     he := plus32 (hd h) t1; hf := he h; hg := hf h; hh := hg h |}.

Definition compress (h : Chaining) (block : list Z) : Chaining :=
  let r := fold_left round (combine round_constants (schedule block)) h in
  {| ha := plus32 (ha h) (ha r); hb := plus32 (hb h) (hb r);
     hc := plus32 (hc h) (hc r); hd := plus32 (hd h) (hd r);
     he := plus32 (he h) (he r); hf := plus32 (hf h) (hf r);
     hg := plus32 (hg h) (hg r); hh := plus32 (hh h) (hh r) |}.

Fixpoint blocks (fuel : nat) (h : Chaining) (ws : list Z) : Chaining :=
  match fuel, ws with
  | S fuel', _ :: _ => blocks fuel' (compress h (firstn 16 ws)) (skipn 16 ws)
  | _, _ => h
  end.

Definition sha256 (msg : list Z) : list Z :=
  let padded := pad msg in
  let ws := words_of (List.length padded) padded in
  let h := blocks (List.length ws) initial_hash ws in
  flat_map (big_endian 4) [ha h; hb h; hc h; hd h; he h; hf h; hg h; hh h].

Definition block_size : nat := 64.

Definition hmac_sha256 (key msg : list Z) : list Z :=
  let k0 := if Nat.ltb block_size (List.length key) then sha256 key else key in
  let k := (k0 ++ repeat 0 (block_size - List.length k0))%list in
  let ipad := map (fun b => Z.lxor b 54) k in
  let opad := map (fun b => Z.lxor b 92) k in
  sha256 (opad ++ sha256 (ipad ++ msg))%list.

Definition octets (s : string) : list Z :=
  map (fun c => Z.of_N (N_of_ascii c)) (list_ascii_of_string s).

Definition hex_char (n : Z) : ascii :=
  ascii_of_N (Z.to_N (if n <? 10 then 48 + n else 87 + n)).

(** Lower-case hexadecimal, two characters an octet. *)
Fixpoint hex (l : list Z) : string :=
  match l with
  | [] => EmptyString
  | b :: rest => String (hex_char (Z.shiftr b 4)) (String (hex_char (Z.land b 15)) (hex rest))
  end.

End HMAC_SHA256.

(* ===================================================================== *)
(** ** OAuthClient: token status *)
(* ===================================================================== *)

Module OAuthClient.

Local Open Scope Z_scope.

(** Modelled from the spec: for the missing [oauth.py] (the server module
    [creqit.meta.FacebookLeadAds.oauth]), the TokenRecord of the data model.
    Times are in seconds; [expires_at = None] is the absent expiry of a
    long-lived token. *)
Record TokenRecord := {
  access_token : string;
  expires_at : option Z;
  obtained_at : Z
}.

(** Modelled from the spec: for the missing [oauth.py], the result of
    [check_status], [{has_token, is_expired, is_long_lived,
    expires_in_seconds}]. *)
Record StatusReport := {
  has_token : bool;
  is_expired : bool;
  is_long_lived : bool;
  expires_in_seconds : option Z
}.

(** Modelled from the spec: for the missing [oauth.py], what an operation of
    the integration core can ask of its surroundings: the current time, and an
    outbound request to the provider. *)
Inductive Op (A : Type) : Type :=
| Return (a : A)
| CurrentTime (k : Z -> Op A)
| Outbound (request : string) (k : string -> Op A).
Arguments Return {A} a.
Arguments CurrentTime {A} k.
Arguments Outbound {A} request k.

(** Modelled from the spec: for the missing [oauth.py], the surroundings an
    operation runs in. *)
Record World := {
  clock : Z;
  provider : string -> string
}.

(** Modelled from the spec: for the missing [oauth.py], an operation run in a
    world, with its result and the outbound requests it made, in order. *)
Fixpoint exec {A} (w : World) (op : Op A) : A * list string :=
  match op with
  | Return a => (a, [])
  | CurrentTime k => exec w (k (clock w))
  | Outbound request k =>
      let (a, made) := exec w (k (provider w request)) in (a, request :: made)
  end.

(** Modelled from the spec: for the missing [oauth.py], the status of the
    stored token at a given time. [None] is the store's [Absent]; a record
    whose expiry lies in the past is expired, a record without expiry is
    long-lived. *)
Definition status_at (now : Z) (token_record : option TokenRecord) : StatusReport :=
  match token_record with
  | None =>
      {| has_token := false; is_expired := false; is_long_lived := false;
         expires_in_seconds := None |}
  | Some t =>
      match expires_at t with
      | None =>
          {| has_token := true; is_expired := false; is_long_lived := true;
             expires_in_seconds := None |}
      | Some e =>
          {| has_token := true; is_expired := e <? now; is_long_lived := false;
             expires_in_seconds := Some (e - now) |}
      end
  end.

(** Modelled from the spec: for the missing [oauth.py],
    [check_status(token_record)], served to the form as
    [oauth.get_token_info]: reads the clock and nothing else. *)
Definition check_status (token_record : option TokenRecord) : Op StatusReport :=
  CurrentTime (fun now => Return (status_at now token_record)).

(** Modelled from the spec: for the missing [oauth.py], the reply the settings
    form receives for a report, which has no [expires_in_days] member. *)
Definition reply_of_report (r : StatusReport) : FacebookLeadAdsSettings.TokenInfo :=
  {| FacebookLeadAdsSettings.has_token := has_token r;
     FacebookLeadAdsSettings.is_expired := is_expired r;
     FacebookLeadAdsSettings.expires_in_days := FacebookLeadAdsSettings.Missing;
     FacebookLeadAdsSettings.expires_in_seconds :=
       match expires_in_seconds r with
       | Some n => FacebookLeadAdsSettings.Number n
       | None => FacebookLeadAdsSettings.Missing
       end;
     FacebookLeadAdsSettings.is_long_lived := is_long_lived r |}.

(** A world to run the status report in. *)
Definition sample_world : World :=
  {| clock := 1700000000; provider := fun _ => EmptyString |}.

End OAuthClient.

(* ===================================================================== *)
(** ** WebhookReceiver *)
(* ===================================================================== *)

Module WebhookReceiver.

Import HMAC_SHA256.
Local Open Scope Z_scope.

(** Modelled from the spec: for the missing [webhook.py] (the server module
    [creqit.meta.FacebookLeadAds.webhook]), the WebhookSubscription of the
    data model. *)
Record WebhookSubscription := {
  name : string;
  page_id : string;
  form_id : string;
  verify_token : string;
  enabled : bool;
  lead_count : Z;
  last_lead_received_at : option Z
}.

(** Modelled from the spec: for the missing [webhook.py], the LeadEvent of the
    data model. *)
Record LeadEvent := {
  lead_id : string;
  field_data : list (string * string);
  lead_form_id : string;
  lead_page_id : string;
  ad_id : string;
  adset_id : string;
  created_time : string
}.

(** Modelled from the spec: for the missing [webhook.py], the reasons a
    request is rejected at a gate. *)
Inductive Rejection :=
| Forbidden
| SignatureInvalid
| MalformedPayload.

(** Modelled from the spec: for the missing [webhook.py], the states of an
    inbound request. *)
Inductive State :=
| RECEIVED
| VERIFIED
| PARSED
| DISPATCHED
| REJECTED (why : Rejection).

(** Modelled from the spec: for the missing [webhook.py], the answers of the
    GET handshake. *)
Inductive HandshakeResponse :=
| Challenge (echo : string)
| HandshakeRejected (why : Rejection).

(** Modelled from the spec: for the missing [webhook.py], the verification
    gate of the GET handshake, which echoes the challenge when the supplied
    verify token is the stored one and rejects with the 403 equivalent
    otherwise. *)
Definition verify_handshake (subscription : WebhookSubscription)
    (supplied_verify_token challenge : string) : HandshakeResponse :=
  if String.eqb supplied_verify_token (verify_token subscription)
  then Challenge challenge
  else HandshakeRejected Forbidden.

(** Modelled from the spec: for the missing [webhook.py], the value of the
    [X-Hub-Signature-256] header for a body, [sha256=<hex>] of the HMAC-SHA256
    of the raw body under the app secret. *)
Definition expected_signature (app_secret body : string) : string :=
  "sha256=" ++ hex (hmac_sha256 (octets app_secret) (octets body)).

(** Modelled from the spec: for the missing [webhook.py], the signature gate
    of a POST delivery. *)
Definition signature_valid (app_secret body : string) (header : option string) : bool :=
  match header with
  | Some h => String.eqb h (expected_signature app_secret body)
  | None => false
  end.

(** Modelled from the spec: for the missing [webhook.py], what the receiver
    holds between requests, the subscriptions and the token store's record. *)
Record Receiver := {
  subscriptions : list WebhookSubscription;
  token : option OAuthClient.TokenRecord
}.

(** Modelled from the spec: for the missing [webhook.py], what a POST delivery
    ends with: its final state, the receiver afterwards, the events emitted to
    the consumer and the number of entries that failed to parse. *)
Record Delivery := {
  final : State;
  receiver : Receiver;
  dispatched : list LeadEvent;
  failures : nat
}.

(** Modelled from the spec: for the missing [webhook.py], a request rejected
    at a gate leaves everything as it was. *)
Definition rejected (why : Rejection) (r : Receiver) : Delivery :=
  {| final := REJECTED why; receiver := r; dispatched := []; failures := 0 |}.

Section Provider.

(** The provider's side, which the spec leaves open: how the members of a
    [value] object spell a lead, and the lead-detail API ([None] when the
    call fails). *)
Variable decode_value : JSValue -> option LeadEvent.
Variable lead_details : string -> string -> option (list (string * string)).

(** Modelled from the spec: for the missing [webhook.py], decoding of the
    nested payload, entry -> changes -> value. *)
Definition decode_change (change : JSValue) : option LeadEvent :=
  match change with
  | Obj members =>
      match own_property members "value" with
      | Some v => decode_value v
      | None => None
      end
  | _ => None
  end.

(** Modelled from the spec: for the missing [webhook.py], the changes of an
    entry, all of which must decode. *)
Fixpoint decode_changes (changes : list JSValue) : option (list LeadEvent) :=
  match changes with
  | [] => Some []
  | c :: rest =>
      match decode_change c, decode_changes rest with
      | Some ev, Some evs => Some (ev :: evs)
      | _, _ => None
      end
  end.

(** Modelled from the spec: for the missing [webhook.py], the LeadEvents of
    one entry, [None] when the entry is malformed. *)
Definition decode_entry (entry : JSValue) : option (list LeadEvent) :=
  match entry with
  | Obj members =>
      match own_property members "changes" with
      | Some (Arr changes) => decode_changes changes
      | _ => None
      end
  | _ => None
  end.

(** Modelled from the spec: for the missing [webhook.py], a LeadEvent with the
    field data of the lead-detail API. *)
Definition with_field_data (ev : LeadEvent) (fd : list (string * string)) : LeadEvent :=
  {| lead_id := lead_id ev; field_data := fd; lead_form_id := lead_form_id ev;
     lead_page_id := lead_page_id ev; ad_id := ad_id ev; adset_id := adset_id ev;
     created_time := created_time ev |}.

(** Modelled from the spec: for the missing [webhook.py], enrichment through
    the lead-detail API with the current token; skipped in simplify_output
    mode, and a missing or expired token or a failed call leaves the inline
    summary. *)
Definition enrich (now : Z) (simplify_output : bool)
    (tok : option OAuthClient.TokenRecord) (ev : LeadEvent) : LeadEvent :=
  if simplify_output then ev
  else if OAuthClient.is_expired (OAuthClient.status_at now tok) then ev
  else
    match tok with
    | Some t =>
        match lead_details (OAuthClient.access_token t) (lead_id ev) with
        | Some fd => with_field_data ev fd
        | None => ev
        end
    | None => ev
    end.

(** Modelled from the spec: for the missing [webhook.py], the subscription
    owning a lead is the one of its page and form. *)
Definition owns (s : WebhookSubscription) (ev : LeadEvent) : bool :=
  String.eqb (page_id s) (lead_page_id ev) && String.eqb (form_id s) (lead_form_id ev).

(** Modelled from the spec: for the missing [webhook.py], the owning
    subscription's [lead_count] and [last_lead_received_at] after a lead. *)
Definition record_lead (now : Z) (ev : LeadEvent) (s : WebhookSubscription)
  : WebhookSubscription :=
  if owns s ev then
    {| name := name s; page_id := page_id s; form_id := form_id s;
       verify_token := verify_token s; enabled := enabled s;
       lead_count := lead_count s + 1; last_lead_received_at := Some now |}
  else s.

(** Modelled from the spec: for the missing [webhook.py], dispatch of one
    LeadEvent, which enriches it, counts it on the owning subscription and
    emits it. *)
Definition dispatch (now : Z) (simplify_output : bool)
    (acc : Receiver * list LeadEvent) (ev : LeadEvent) : Receiver * list LeadEvent :=
  let (r, out) := acc in
  ({| subscriptions := map (record_lead now ev) (subscriptions r); token := token r |},
   (out ++ [enrich now simplify_output (token r) ev])%list).

(** Modelled from the spec: for the missing [webhook.py], best-effort
    processing of the entries; a malformed entry is counted and skipped. *)
Fixpoint process_entries (now : Z) (simplify_output : bool) (entries : list JSValue)
    (acc : Receiver * list LeadEvent) (failed : nat)
  : Receiver * list LeadEvent * nat :=
  match entries with
  | [] => (acc, failed)
  | e :: rest =>
      match decode_entry e with
      | Some evs =>
          process_entries now simplify_output rest
            (fold_left (dispatch now simplify_output) evs acc) failed
      | None => process_entries now simplify_output rest acc (S failed)
      end
  end.

(** The subscriptions after the leads [evs] were counted, in order. *)
Definition count_leads (now : Z) (evs : list LeadEvent)
    (subs : list WebhookSubscription) : list WebhookSubscription :=
  fold_left (fun acc ev => map (record_lead now ev) acc) evs subs.

(** The events an entry contributes, none when it is malformed. *)
Definition events_of_entry (entry : JSValue) : list LeadEvent :=
  match decode_entry entry with
  | Some evs => evs
  | None => []
  end.

Definition is_malformed (entry : JSValue) : bool :=
  match decode_entry entry with
  | Some _ => false
  | None => true
  end.

(** Modelled from the spec: for the missing [webhook.py], a POST delivery,
    through the signature gate, parsing and dispatch. *)
Definition handle_post (now : Z) (simplify_output : bool) (app_secret body : string)
    (signature_header : option string) (r : Receiver) : Delivery :=
  if negb (signature_valid app_secret body signature_header)
  then rejected SignatureInvalid r
  else
    match JSON_parse body with
    | Normal (Obj members) =>
        match own_property members "entry" with
        | Some (Arr entries) =>
            let '(r', out, failed) :=
              process_entries now simplify_output entries (r, []) 0%nat in
            {| final := DISPATCHED; receiver := r'; dispatched := out;
               failures := failed |}
        | _ => rejected MalformedPayload r
        end
    | _ => rejected MalformedPayload r
    end.

End Provider.

(** An instance of the provider's side, used to run the receiver: the
    members the provider documents for a [leadgen] value. *)
Definition text_member (members : list (string * JSValue)) (k : string) : option string :=
  match own_property members k with
  | Some (Str s) => Some s
  | Some (Num n) => Some n
  | _ => None
  end.

Definition leadgen_value (v : JSValue) : option LeadEvent :=
  match v with
  | Obj members =>
      match text_member members "leadgen_id", text_member members "form_id",
            text_member members "page_id", text_member members "created_time" with
      | Some l, Some f, Some p, Some c =>
          Some {| lead_id := l; field_data := []; lead_form_id := f; lead_page_id := p;
                  ad_id := match text_member members "ad_id" with
                           | Some a => a | None => EmptyString end;
                  adset_id := match text_member members "adgroup_id" with
                              | Some a => a | None => EmptyString end;
                  created_time := c |}
      | _, _, _, _ => None
      end
  | _ => None
  end.

(** A delivery of three entries, the second without [changes], written
    with single quotes for double ones. *)
Definition json_text (s : string) : string :=
  MetaLeadAccountList.replace_all sq_c dq s.

Definition sample_body : string :=
  json_text
    ("{'object':'page','entry':["
     ++ "{'id':'P1','time':1700000000,'changes':[{'field':'leadgen','value':"
     ++ "{'leadgen_id':'L1','form_id':'F1','page_id':'P1','ad_id':'A1',"
     ++ "'adgroup_id':'G1','created_time':1700000000}}]},"
     ++ "{'id':'P1','time':1700000001},"
     ++ "{'id':'P1','time':1700000002,'changes':[{'field':'leadgen','value':"
     ++ "{'leadgen_id':'L3','form_id':'F1','page_id':'P1','created_time':1700000002}}]}"
     ++ "]}").

Definition sample_secret : string := "0123456789abcdef0123456789abcdef".

Definition sample_subscription : WebhookSubscription :=
  {| name := "Main page form"; page_id := "P1"; form_id := "F1";
     verify_token := "4f1c2d"; enabled := true; lead_count := 7;
     last_lead_received_at := None |}.

Definition sample_receiver : Receiver :=
  {| subscriptions := [sample_subscription]; token := None |}.

Definition no_details (access_token lead : string) : option (list (string * string)) :=
  None.

Definition sample_members : list (string * JSValue) :=
  Eval vm_compute in
    match JSON_parse sample_body with
    | Normal (Obj members) => members
    | _ => []
    end.

Definition sample_entries : list JSValue :=
  Eval vm_compute in
    match own_property sample_members "entry" with
    | Some (Arr entries) => entries
    | _ => []
    end.

End WebhookReceiver.

(* ===================================================================== *)
(** ** Reading escaped text back *)
(* ===================================================================== *)

(** The reading of the five entities [escape_html] writes, and what the
    escaping adds to a text. *)
Module EntityDecoding.

Import MetaLeadAccountList.

(** The character an entity at the head of [s] stands for, and the rest. *)
Definition decode_entity (s : string) : option (ascii * string) :=
  if starts_with "&amp;" s then Some (amp_c, JSONParser.drop 5 s)
  else if starts_with "&lt;" s then Some (lt_c, JSONParser.drop 4 s)
  else if starts_with "&gt;" s then Some (gt_c, JSONParser.drop 4 s)
  else if starts_with "&quot;" s then Some (dq_c, JSONParser.drop 6 s)
  else if starts_with "&#39;" s then Some (sq_c, JSONParser.drop 5 s)
  else None.

Fixpoint unescape_fuel (fuel : nat) (s : string) : string :=
  match fuel with
  | O => EmptyString
  | S fuel' =>
      match decode_entity s with
      | Some (c, rest) => String c (unescape_fuel fuel' rest)
      | None =>
          match s with
          | EmptyString => EmptyString
          | String c rest => String c (unescape_fuel fuel' rest)
          end
      end
  end.

(** Replaces each of the five entities by its character, left to right. *)
Definition unescape_html (s : string) : string :=
  unescape_fuel (String.length s) s.

(** The characters [escape_html] replaces. *)
Definition is_special (c : ascii) : bool :=
  Ascii.eqb c amp_c || Ascii.eqb c lt_c || Ascii.eqb c gt_c
  || Ascii.eqb c dq_c || Ascii.eqb c sq_c.

Fixpoint has_special (s : string) : bool :=
  match s with
  | EmptyString => false
  | String c rest => is_special c || has_special rest
  end.

(** How many characters longer the entity of [c] is than [c]. *)
Definition overhead_of (c : ascii) : nat :=
  if Ascii.eqb c amp_c then 4
  else if Ascii.eqb c lt_c then 3
  else if Ascii.eqb c gt_c then 3
  else if Ascii.eqb c dq_c then 5
  else if Ascii.eqb c sq_c then 4
  else 0.

Fixpoint overhead (s : string) : nat :=
  match s with
  | EmptyString => 0
  | String c rest => overhead_of c + overhead rest
  end.

End EntityDecoding.


(* ===================================================================== *)
(** ** Which account lists render *)
(* ===================================================================== *)

Module Renderable.

Import MetaLeadAccountList.

Fixpoint count_char (c : ascii) (s : string) : nat :=
  match s with
  | EmptyString => 0
  | String a s' => (if Ascii.eqb a c then 1 else 0) + count_char c s'
  end.

(** [String(v)] returns: no object with an own [toString] member is reached
    through [v]'s arrays. *)
Fixpoint stringifies (v : JSValue) : bool :=
  match v with
  | Arr items => forallb stringifies items
  | Obj members => negb (has_own members "toString")
  | _ => true
  end.

Definition member_stringifies (members : list (string * JSValue)) (name : string)
  : bool :=
  match own_property members name with
  | Some v => stringifies v
  | None => true
  end.

(** The rows the arrow function of [rows.map] returns for. *)
Definition row_renders (r : JSValue) : bool :=
  match r with
  | Undefined | Null => false
  | Obj members =>
      forallb (member_stringifies members)
        ["page_name"; "category"; "business_name"; "city"; "country"; "tasks"]
  | _ => true
  end.

Section JSBuiltins.

Variable Number_nonzero : string -> bool.

(** The parsed values other than arrays whose [length] is falsy: numbers,
    booleans, the empty string, and objects without a truthy [length]
    member. *)
Definition shown_as_empty (rows : JSValue) : bool :=
  match rows with
  | Bool _ | Num _ => true
  | Str s => is_empty_string s
  | Obj members =>
      match own_property members "length" with
      | Some v => negb (truthy Number_nonzero v)
      | None => true
      end
  | _ => false
  end.

End JSBuiltins.

(** [l.join(sep)] on strings. *)
Fixpoint join_strings (sep : string) (l : list string) : string :=
  match l with
  | [] => EmptyString
  | [s] => s
  | s :: rest => s ++ sep ++ join_strings sep rest
  end.

(** A computation returns exactly when [ok] holds, and throws nothing but a
    [TypeError]. *)
Definition decided_by {A} (ok : bool) (c : completion A) : Prop :=
  match c with
  | Normal _ => ok = true
  | Throw e => ok = false /\ e = TypeError
  end.

Definition sum_counts (c : ascii) (l : list string) : nat :=
  fold_right (fun s n => count_char c s + n) 0 l.

End Renderable.


(* ===================================================================== *)
(** ** Reading a handler's effects *)
(* ===================================================================== *)

Module SettingsObservations.

Import FacebookLeadAdsSettings.

(** The actions offered as buttons, in order. *)
Definition offered (l : list Effect) : list Action :=
  flat_map (fun e => match e with
                     | add_custom_button _ a _ => [a]
                     | _ => []
                     end) l.

(** The server methods called, in order. *)
Definition calls (l : list Effect) : list string :=
  flat_map (fun e => match e with
                     | call method => [method]
                     | _ => []
                     end) l.

(** The URLs the browser is pointed at, in a popup or in the page itself. *)
Definition urls (l : list Effect) : list string :=
  flat_map (fun e => match e with
                     | window_open url _ _ => [url]
                     | set_location_href url => [url]
                     | _ => []
                     end) l.

Definition is_indicator (e : Effect) : bool :=
  match e with
  | add_indicator _ _ => true
  | _ => false
  end.

Definition is_button (e : Effect) : bool :=
  match e with
  | add_custom_button _ _ _ => true
  | _ => false
  end.

(** What an action needs of the document to be offered, beside an enabled
    integration with an app id. *)
Definition needs (a : Action) (d : Doc) : bool :=
  match a with
  | AuthorizeFacebook | CheckTokenStatus | TestCallbackUrl => true
  | RefreshToken => nonempty (access_token d)
  | CopyCallbackUrl | CopyVerifyToken | RegenerateVerifyToken =>
      nonempty (webhook_callback_url d)
  end.

(** The methods a handler calls, given the operator's answer. *)
Definition methods_of (env : Env) (h : Handler) : list string :=
  match h with
  | OnClick AuthorizeFacebook =>
      ["creqit.meta.FacebookLeadAds.oauth.get_authorization_url"]
  | OnClick CheckTokenStatus =>
      ["creqit.meta.FacebookLeadAds.oauth.get_token_info"]
  | OnClick RefreshToken =>
      if confirmed env then ["creqit.meta.FacebookLeadAds.oauth.refresh_token"]
      else []
  | OnClick RegenerateVerifyToken =>
      if confirmed env then ["regenerate_verify_token"] else []
  | DebugFacebookToken =>
      ["creqit.meta.FacebookLeadAds.oauth.get_token_info"; "creqit.client.get"]
  | _ => []
  end.

Definition test_callback_path : string :=
  "/api/method/creqit.meta.FacebookLeadAds.oauth.test_callback".

(** A session: handlers run one after the other, each in its own
    surroundings, on the document the previous one left. *)
Definition run_all (steps : list (Env * Handler)) (d : Doc) : Doc :=
  fold_left (fun doc step => doc_after (run (fst step) (snd step)) doc) steps d.

Definition default_authorization_url : string :=
  "https://www.facebook.com/v24.0/dialog/oauth".

Definition default_access_token_url : string :=
  "https://graph.facebook.com/v24.0/oauth/access_token".

(** The sample document with a token that expires in three days, and with
    an expiry that cannot be read. *)
Definition with_expiry (d : Doc) (e : option DateValue) : Doc :=
  {| enabled := enabled d; app_id := app_id d; access_token := access_token d;
     webhook_callback_url := webhook_callback_url d;
     webhook_verify_token := webhook_verify_token d;
     token_expiry := e;
     authorization_url := authorization_url d;
     access_token_url := access_token_url d |}.

Definition expiring_doc : Doc :=
  with_expiry sample_doc (Some (TimeValue 1700259200000)).

Definition unreadable_doc : Doc := with_expiry sample_doc (Some InvalidDate).

(** A session in which the only Regenerate dialog is declined. *)
Definition sample_session : list (Env * Handler) :=
  [ (confirming_env, OnRefresh); (confirming_env, OnAppId);
    (declining_env, OnClick RegenerateVerifyToken);
    (confirming_env, OnClick RefreshToken);
    (confirming_env, OnClick CopyVerifyToken) ].

(** The surroundings [env] in which [oauth.get_token_info] answers
    [status]. *)
Definition answering (env : Env) (status : TokenInfo) : Env :=
  {| now := now env; confirmed := confirmed env;
     primary_action_clicked := primary_action_clicked env;
     authorization_reply := authorization_reply env;
     token_info_reply := Some status;
     regenerate_reply := regenerate_reply env;
     client_get_reply := client_get_reply env;
     stored_doc := stored_doc env;
     clipboard_error := clipboard_error env;
     screen_width := screen_width env; screen_height := screen_height env;
     origin := origin env |}.

(** Three answers of [oauth.get_token_info]: a long-lived token whose
    [expires_in_days] and [expires_in_seconds] are [null], a token that is
    reported both expired and long-lived, and a token with thirty days
    left. *)
Definition null_days_status : TokenInfo :=
  {| has_token := true; is_expired := false; expires_in_days := IsNull;
     expires_in_seconds := IsNull; is_long_lived := true |}.

Definition expired_status : TokenInfo :=
  {| has_token := true; is_expired := true; expires_in_days := Missing;
     expires_in_seconds := Missing; is_long_lived := true |}.

Definition thirty_days_status : TokenInfo :=
  {| has_token := true; is_expired := false; expires_in_days := Number 30;
     expires_in_seconds := Number 2592000; is_long_lived := false |}.

(** What a click on Check Token Status that ends in a dialog consists of:
    the call to [oauth.get_token_info], then the Token Status dialog with a
    message and an indicator. *)
Definition token_status_dialog (message : Text) (indicator : string)
  : list Effect :=
  [ call "creqit.meta.FacebookLeadAds.oauth.get_token_info";
    msgprint (Some (t_ "Token Status")) [Tr message] (Some indicator) None ].

(** The text of the dialog for a token with an [expires_in_days] member. *)
Definition valid_text (days seconds : Member) : Text :=
  T "Token is valid. Expires in {0} days ({1} seconds)"
    [ArgMember days; ArgMember seconds].

End SettingsObservations.


(* ===================================================================== *)
(** ** Meta Lead Account List: the form events *)
(* ===================================================================== *)

Module MetaLeadAccountForm.

Import MetaLeadAccountList.
Local Open Scope Z_scope.

(** A member of the reply that holds a count: missing, [null], or a
    number. *)
Inductive Count :=
| Missing
| IsNull
| Number (n : Z).

(** [r.message] of [sync_accounts]. *)
Record SyncReply := {
  total_processed : Count;
  failures : Count
}.

(** Truthiness of a count. *)
Definition nonzero (c : Count) : bool :=
  match c with
  | Number n => negb (n =? 0)
  | _ => false
  end.

Inductive Effect :=
| add_custom_button (label : string)
| call (method : string)
| show_alert (template : string) (args : list Count) (indicator : string)
| reload_doc.

(** The callback of the Sync Accounts button, for the reply the server
    gives ([None]: no [r.message]). *)
Definition sync_accounts (reply : option SyncReply) : list Effect :=
  call "creqit.meta.doctype.meta_lead_account_list.meta_lead_account_list.sync_accounts"
  :: match reply with
     | Some r =>
         [ show_alert "Processed: {0}, Failures: {1}"
             [total_processed r; failures r]
             (if nonzero (failures r) then "orange" else "green");
           reload_doc ]
     | None => []
     end.

Section JSBuiltins.

Variable Number_nonzero : string -> bool.
Variable Number_toString : string -> string.

(** The [refresh] form event: the button, then the table. *)
Definition refresh (frm : Form) : completion unit * Form * list Effect :=
  let (c, frm') := render_accounts_table Number_nonzero Number_toString frm in
  (c, frm', [add_custom_button "Sync Accounts"]).

End JSBuiltins.

(** Two accounts, as the server stores them, written with single quotes for
    double ones. *)
Definition sample_accounts_json : string :=
  replace_all sq_c dq
    ("[{'page_name':'Tom & <b>Co</b>','category':'Cafe','city':'Izmir',"
     ++ "'tasks':['MANAGE','ADVERTISE']},"
     ++ "{'page_name':'Ada','business_name':'Ada > Ltd','tasks':['ANALYZE']}]").

Definition sample_accounts : list JSValue :=
  Eval vm_compute in
    match JSON_parse sample_accounts_json with
    | Normal (Arr items) => items
    | _ => []
    end.

Definition sample_form : Form :=
  {| accounts_json := Some sample_accounts_json; innerHTML := "<p>old</p>" |}.

End MetaLeadAccountForm.

(* ===================================================================== *)
(** ** Account Dashboard page *)
(* ===================================================================== *)

(** [creqit/custom/doctype/account_dashboard/account_dashboard.js]: the
    methods of [creqit.AccountDashboard].  The base class [creqit.Dashboard]
    belongs to the framework; its member [this.dashboard] is taken to exist
    and its [refresh] is recorded as an effect. *)
Module AccountDashboard.

(** [this.dashboard_settings]: [null], the value kept in the user settings,
    or [{ filters: { account } }]. *)
Inductive Settings :=
| NoSettings
| UserSettings (stored : JSValue)
| AccountFilters (account : string).

Inductive Effect :=
| append_container
| append_filter_area
| make_account_field
| dashboard_refresh.

(** The fields of the object the methods read or write.  [filters] is
    [None] while [this.filters] is undefined; the account it holds is [None]
    for [null] or [undefined]. *)
Record Dashboard := {
  page_title : option string;
  dashboard_settings : Settings;
  filters : option (option string);
  trace : list Effect
}.

Definition with_trace (s : Dashboard) (es : list Effect) : Dashboard :=
  {| page_title := page_title s; dashboard_settings := dashboard_settings s;
     filters := filters s; trace := trace s ++ es |}.

(** Truthiness of an account value. *)
Definition chosen (account : option string) : option string :=
  match account with
  | Some a => if is_empty_string a then None else Some a
  | None => None
  end.

(** The callback of [setup_defaults]; [user_setting] is the
    [dashboard_settings] member of the user settings when it is truthy. *)
Definition setup_defaults (user_setting : option JSValue) (s : Dashboard) : Dashboard :=
  {| page_title := Some "Account Dashboard";
     dashboard_settings :=
       match user_setting with
       | Some v => UserSettings v
       | None => NoSettings
       end;
     filters := filters s; trace := trace s |}.

Definition setup_dashboard (s : Dashboard) : Dashboard :=
  with_trace s [append_container].

Definition setup_filters (s : Dashboard) : Dashboard :=
  {| page_title := page_title s; dashboard_settings := dashboard_settings s;
     filters := Some None;
     trace := trace s ++ [append_filter_area; make_account_field] |}.

Definition refresh (s : Dashboard) : completion Dashboard :=
  match filters s with
  | None => Throw TypeError
  | Some account =>
      match chosen account with
      | None => Normal s
      | Some a =>
          Normal {| page_title := page_title s;
                    dashboard_settings := AccountFilters a;
                    filters := filters s;
                    trace := trace s ++ [dashboard_refresh] |}
      end
  end.

Definition setup (s : Dashboard) : completion Dashboard :=
  refresh (setup_filters (setup_dashboard s)).

(** The [change] callback of the account field, for the value the field
    holds. *)
Definition on_change (value : option string) (s : Dashboard) : completion Dashboard :=
  match filters s with
  | None => Throw TypeError
  | Some _ =>
      refresh {| page_title := page_title s;
                 dashboard_settings := dashboard_settings s;
                 filters := Some value; trace := trace s |}
  end.

(** The account field changing to each of [values] in turn. *)
Fixpoint changes (values : list (option string)) (s : Dashboard)
  : completion Dashboard :=
  match values with
  | [] => Normal s
  | v :: rest =>
      match on_change v s with
      | Normal s' => changes rest s'
      | Throw e => Throw e
      end
  end.

(** The last account chosen among [values], if any. *)
Definition last_chosen (values : list (option string)) : option string :=
  fold_left (fun acc v => match chosen v with Some a => Some a | None => acc end)
    values None.

Definition count_refreshes (l : list Effect) : nat :=
  List.length (filter (fun e => match e with dashboard_refresh => true | _ => false end) l).

Definition count_chosen (values : list (option string)) : nat :=
  List.length (filter (fun v => match chosen v with Some _ => true | None => false end)
                 values).

Definition fresh : Dashboard :=
  {| page_title := None; dashboard_settings := NoSettings; filters := None;
     trace := [] |}.

(** An account chosen, another chosen, the field emptied. *)
Definition sample_values : list (option string) :=
  [Some "ACC-0001"; Some "ACC-0002"; Some EmptyString].

End AccountDashboard.


(* ===================================================================== *)
(** ** The cells of the accounts table *)
(* ===================================================================== *)

Module TableCells.

Import MetaLeadAccountList.

(** The texts of the six cells of a row, in column order, before any
    escaping. *)
Record Cells := {
  page_name_text : string;
  category_text : string;
  business_name_text : string;
  city_text : string;
  country_text : string;
  tasks_text : string
}.

(** The member [name] of a parsed row holds the text [s]: it is the string
    [s], or it is [null] or left out and [s] is empty (what [r.name || '']
    is then). *)
Definition text_member (members : list (string * JSValue)) (name s : string)
  : Prop :=
  match own_property members name with
  | Some (Str t) => s = t
  | Some Null | None => s = EmptyString
  | Some _ => False
  end.

Section JSBuiltins.

Variable Number_nonzero : string -> bool.
Variable Number_toString : string -> string.

(** [c] holds the texts the arrow function of [rows.map] computes for the
    row [r]: [String(r.name || '')] for the five escaped members and the
    tasks cell. *)
Definition cells_of_row (r : JSValue) (c : Cells) : Prop :=
  cell_text Number_nonzero Number_toString r "page_name"
    = Normal (page_name_text c) /\
  cell_text Number_nonzero Number_toString r "category"
    = Normal (category_text c) /\
  cell_text Number_nonzero Number_toString r "business_name"
    = Normal (business_name_text c) /\
  cell_text Number_nonzero Number_toString r "city" = Normal (city_text c) /\
  cell_text Number_nonzero Number_toString r "country"
    = Normal (country_text c) /\
  tasks_cell Number_nonzero Number_toString r = Normal (tasks_text c).

(** [r] is an object whose five text members hold the texts of [c], and
    whose tasks cell is the tasks text of [c]. *)
Definition text_row (r : JSValue) (c : Cells) : Prop :=
  exists members,
    r = Obj members /\
    text_member members "page_name" (page_name_text c) /\
    text_member members "category" (category_text c) /\
    text_member members "business_name" (business_name_text c) /\
    text_member members "city" (city_text c) /\
    text_member members "country" (country_text c) /\
    tasks_cell Number_nonzero Number_toString r = Normal (tasks_text c).

End JSBuiltins.

(** The texts of the two sample accounts. *)
Definition sample_cells : list Cells :=
  [ {| page_name_text := "Tom & <b>Co</b>"; category_text := "Cafe";
       business_name_text := EmptyString; city_text := "Izmir";
       country_text := EmptyString; tasks_text := "MANAGE, ADVERTISE" |};
    {| page_name_text := "Ada"; category_text := EmptyString;
       business_name_text := "Ada > Ltd"; city_text := EmptyString;
       country_text := EmptyString; tasks_text := "ANALYZE" |} ].

End TableCells.


(* ===================================================================== *)
(** * Properties *)
(* ===================================================================== *)

(** ** Strings *)

Lemma occurs_app (c : ascii) (a b : string) :
  occurs c (a ++ b) = occurs c a || occurs c b.
Proof.
  induction a as [|x a IH]; simpl; [reflexivity|].
  rewrite IH. apply orb_assoc.
Qed.

Lemma starts_with_app (e t : string) : starts_with e (e ++ t) = true.
Proof.
  induction e as [|x e IH]; simpl; [reflexivity|].
  rewrite Ascii.eqb_refl. exact IH.
Qed.

Lemma starts_with_prefix (e s : string) :
  starts_with e s = true -> exists r, s = e ++ r.
Proof.
  revert s. induction e as [|x e IH]; intros s H; simpl in *.
  - exists s. reflexivity.
  - destruct s as [|y s]; [discriminate|].
    apply andb_true_iff in H. destruct H as [Hxy Hs].
    apply Ascii.eqb_eq in Hxy. subst y.
    destruct (IH s Hs) as [r ->]. exists r. reflexivity.
Qed.

Lemma string_app_assoc (a b c : string) : (a ++ b) ++ c = a ++ (b ++ c).
Proof.
  induction a as [|x a IH]; simpl; [reflexivity|]. now rewrite IH.
Qed.

(** ** [escape_html] *)

Module EscapeFacts.

Import MetaLeadAccountList.

Lemma replace_all_app (c : ascii) (rep a b : string) :
  replace_all c rep (a ++ b) = replace_all c rep a ++ replace_all c rep b.
Proof.
  induction a as [|x a IH]; simpl; [reflexivity|].
  destruct (Ascii.eqb x c); rewrite IH; simpl.
  - now rewrite string_app_assoc.
  - reflexivity.
Qed.

(** A replacement whose text does not contain the pattern removes it. *)
Lemma replace_all_removes (c : ascii) (rep s : string) :
  occurs c rep = false -> occurs c (replace_all c rep s) = false.
Proof.
  intros Hrep. induction s as [|x s IH]; simpl; [reflexivity|].
  destruct (Ascii.eqb x c) eqn:E.
  - rewrite occurs_app, Hrep, IH. reflexivity.
  - simpl. rewrite E, IH. reflexivity.
Qed.

(** A replacement cannot introduce a character that is neither in its text
    nor in its input. *)
Lemma replace_all_keeps_absent (x c : ascii) (rep s : string) :
  occurs x rep = false -> occurs x s = false ->
  occurs x (replace_all c rep s) = false.
Proof.
  intros Hrep. induction s as [|y s IH]; simpl; intros Hs; [reflexivity|].
  apply orb_false_iff in Hs. destruct Hs as [Hy Hs].
  destruct (Ascii.eqb y c).
  - rewrite occurs_app, Hrep, (IH Hs). reflexivity.
  - simpl. rewrite Hy, (IH Hs). reflexivity.
Qed.

Lemma escape_html_no_lt (s : string) : occurs lt_c (escape_html s) = false.
Proof.
  unfold escape_html.
  do 3 (apply replace_all_keeps_absent; [reflexivity|]).
  apply replace_all_removes. reflexivity.
Qed.

Lemma escape_html_no_gt (s : string) : occurs gt_c (escape_html s) = false.
Proof.
  unfold escape_html.
  do 2 (apply replace_all_keeps_absent; [reflexivity|]).
  apply replace_all_removes. reflexivity.
Qed.

Lemma escape_html_no_dq (s : string) : occurs dq_c (escape_html s) = false.
Proof.
  unfold escape_html.
  do 1 (apply replace_all_keeps_absent; [reflexivity|]).
  apply replace_all_removes. reflexivity.
Qed.

Lemma escape_html_no_sq (s : string) : occurs sq_c (escape_html s) = false.
Proof.
  unfold escape_html. apply replace_all_removes. reflexivity.
Qed.

Lemma escape_html_markup_free (s : string) : markup_free (escape_html s) = true.
Proof.
  unfold markup_free.
  now rewrite escape_html_no_lt, escape_html_no_gt, escape_html_no_dq,
    escape_html_no_sq.
Qed.

(** The five replacements in sequence act on each character on its own. *)
Lemma escape_html_cons (a : ascii) (s : string) :
  escape_html (String a s) = escape_char a ++ escape_html s.
Proof.
  unfold escape_html, escape_char. cbn [replace_all].
  destruct (Ascii.eqb a amp_c) eqn:E1.
  { rewrite !replace_all_app. reflexivity. }
  cbn [replace_all]. destruct (Ascii.eqb a lt_c) eqn:E2.
  { rewrite !replace_all_app. reflexivity. }
  cbn [replace_all]. destruct (Ascii.eqb a gt_c) eqn:E3.
  { rewrite !replace_all_app. reflexivity. }
  cbn [replace_all]. destruct (Ascii.eqb a dq_c) eqn:E4.
  { rewrite !replace_all_app. reflexivity. }
  cbn [replace_all]. destruct (Ascii.eqb a sq_c) eqn:E5; reflexivity.
Qed.

Lemma escape_html_app (a b : string) :
  escape_html (a ++ b) = escape_html a ++ escape_html b.
Proof.
  unfold escape_html. now rewrite !replace_all_app.
Qed.

Lemma amps_are_entities_escape_char (a : ascii) (t : string) :
  amps_are_entities t = true ->
  amps_are_entities (escape_char a ++ t) = true.
Proof.
  intros H. unfold escape_char.
  destruct (Ascii.eqb a amp_c) eqn:E1; [exact H|].
  destruct (Ascii.eqb a lt_c); [exact H|].
  destruct (Ascii.eqb a gt_c); [exact H|].
  destruct (Ascii.eqb a dq_c); [exact H|].
  destruct (Ascii.eqb a sq_c); [exact H|].
  cbn [str1 append amps_are_entities]. rewrite E1. exact H.
Qed.

Lemma escape_html_amps (s : string) : amps_are_entities (escape_html s) = true.
Proof.
  induction s as [|a s IH]; [reflexivity|].
  rewrite escape_html_cons. now apply amps_are_entities_escape_char.
Qed.

(** The checker [amps_are_entities] read as a statement on occurrences. *)
Lemma amps_are_entities_spec (s : string) :
  amps_are_entities s = true ->
  forall p q, s = p ++ String amp_c q ->
  exists e r, In e entities /\ String amp_c q = e ++ r.
Proof.
  intros H p. revert s H.
  induction p as [|x p IH]; intros s H q Hs; subst s;
    cbn [amps_are_entities append] in H.
  - apply andb_true_iff in H. destruct H as [H _].
    rewrite Ascii.eqb_refl in H. unfold entity_at in H.
    apply existsb_exists in H. destruct H as [e [He Hp]].
    apply starts_with_prefix in Hp. destruct Hp as [r Hr].
    exists e, r. split; assumption.
  - apply andb_true_iff in H. destruct H as [_ H].
    exact (IH _ H q eq_refl).
Qed.

End EscapeFacts.

(** ** [render_accounts_table] *)

Module RenderFacts.

Import MetaLeadAccountList EscapeFacts TableCells.

Section WithBuiltins.

Variable Number_nonzero : string -> bool.
Variable Number_toString : string -> string.

Local Abbreviation cell_text := (cell_text Number_nonzero Number_toString).
Local Abbreviation escaped_cell := (escaped_cell Number_nonzero Number_toString).
Local Abbreviation tasks_cell := (tasks_cell Number_nonzero Number_toString).
Local Abbreviation render_row := (render_row Number_nonzero Number_toString).
Local Abbreviation map_rows := (map_rows Number_nonzero Number_toString).
Local Abbreviation render_accounts_table :=
  (render_accounts_table Number_nonzero Number_toString).

Lemma bind_normal {A B} (c : completion A) (k : A -> completion B) (b : B) :
  bind c k = Normal b -> exists a, c = Normal a /\ k a = Normal b.
Proof.
  destruct c as [a|e]; simpl; intros H; [|discriminate].
  exists a. split; [reflexivity | exact H].
Qed.

Lemma escaped_cell_normal (r : JSValue) (name c : string) :
  escaped_cell r name = Normal c ->
  exists s, cell_text r name = Normal s /\ c = escape_html s.
Proof.
  unfold MetaLeadAccountList.escaped_cell. intros H.
  apply bind_normal in H. destruct H as [s [Hs Hc]].
  exists s. split; [exact Hs | now inversion Hc].
Qed.

(** A rendered row is the template around five escaped texts and the
    tasks cell. *)
Lemma render_row_normal (r : JSValue) (html : string) :
  render_row r = Normal html ->
  exists s1 s2 s3 s4 s5 c6,
    cell_text r "page_name" = Normal s1 /\
    cell_text r "category" = Normal s2 /\
    cell_text r "business_name" = Normal s3 /\
    cell_text r "city" = Normal s4 /\
    cell_text r "country" = Normal s5 /\
    tasks_cell r = Normal c6 /\
    html = row_template (escape_html s1) (escape_html s2) (escape_html s3)
             (escape_html s4) (escape_html s5) c6.
Proof.
  unfold MetaLeadAccountList.render_row. intros H.
  apply bind_normal in H. destruct H as [c1 [H1 H]].
  apply bind_normal in H. destruct H as [c2 [H2 H]].
  apply bind_normal in H. destruct H as [c3 [H3 H]].
  apply bind_normal in H. destruct H as [c4 [H4 H]].
  apply bind_normal in H. destruct H as [c5 [H5 H]].
  apply bind_normal in H. destruct H as [c6 [H6 H]].
  apply escaped_cell_normal in H1, H2, H3, H4, H5.
  destruct H1 as [s1 [T1 ->]]. destruct H2 as [s2 [T2 ->]].
  destruct H3 as [s3 [T3 ->]]. destruct H4 as [s4 [T4 ->]].
  destruct H5 as [s5 [T5 ->]].
  exists s1, s2, s3, s4, s5, c6. inversion H. tauto.
Qed.

(** Text that is not valid JSON: the message, and a normal return. *)
Lemma render_invalid_json (frm : Form) (e : exn) :
  JSON_parse (raw_of frm) = Throw e ->
  render_accounts_table frm = (Normal tt, set_innerHTML frm invalid_json_html).
Proof.
  unfold MetaLeadAccountList.render_accounts_table. intros ->. reflexivity.
Qed.

(** An empty array: the empty-state message. *)
Lemma render_empty_array (frm : Form) :
  JSON_parse (raw_of frm) = Normal (Arr []) ->
  render_accounts_table frm = (Normal tt, set_innerHTML frm empty_state_html).
Proof.
  unfold MetaLeadAccountList.render_accounts_table. intros ->. reflexivity.
Qed.

(** The table is written only for a non-empty array, all of whose rows
    rendered. *)
Lemma render_table_only_for_rows (frm frm' : Form) (tbody : string) :
  render_accounts_table frm = (Normal tt, frm') ->
  innerHTML frm' = table_html tbody ->
  exists r rest trs,
    JSON_parse (raw_of frm) = Normal (Arr (r :: rest)) /\
    map_rows (r :: rest) = Normal trs.
Proof.
  unfold MetaLeadAccountList.render_accounts_table.
  destruct (JSON_parse _) as [rows|e].
  2:{ intros H Hh. inversion H; subst frm'. simpl in Hh. discriminate Hh. }
  destruct (length_is_falsy Number_nonzero rows) as [[|]|e] eqn:Hlen.
  - intros H Hh. inversion H; subst frm'. simpl in Hh. discriminate Hh.
  - destruct rows as [| | | | |items|]; cbn [rows_map];
      try (intros H; discriminate H).
    destruct items as [|r rest]; [discriminate Hlen|].
    destruct (MetaLeadAccountList.map_rows _ _ (r :: rest)) as [trs|e] eqn:Hm;
      [|intros H; discriminate H].
    intros _ _. exists r, rest, trs. split; [reflexivity | exact Hm].
  - intros H. discriminate H.
Qed.

(** The row of the table for six cell texts: the first five escaped, the
    tasks text as it is. *)
Local Abbreviation row_of :=
  (fun c : Cells =>
     row_template (escape_html (page_name_text c)) (escape_html (category_text c))
       (escape_html (business_name_text c)) (escape_html (city_text c))
       (escape_html (country_text c)) (tasks_text c)).

Lemma text_member_cell (members : list (string * JSValue)) (name s : string) :
  text_member members name s -> cell_text (Obj members) name = Normal s.
Proof.
  unfold text_member, MetaLeadAccountList.cell_text, get_member.
  destruct (own_property members name) as [[| | | |t| |]|]; cbn [bind];
    try contradiction; intros ->; try reflexivity.
  unfold or_else. destruct t; reflexivity.
Qed.

Lemma text_row_cells (r : JSValue) (c : Cells) :
  text_row Number_nonzero Number_toString r c ->
  cells_of_row Number_nonzero Number_toString r c.
Proof.
  intros (members & -> & H1 & H2 & H3 & H4 & H5 & H6).
  repeat (split; [now apply text_member_cell|]). exact H6.
Qed.

Lemma render_row_of_cells (r : JSValue) (c : Cells) :
  cells_of_row Number_nonzero Number_toString r c ->
  render_row r = Normal (row_of c).
Proof.
  intros (H1 & H2 & H3 & H4 & H5 & H6).
  unfold MetaLeadAccountList.render_row, MetaLeadAccountList.escaped_cell.
  rewrite H1, H2, H3, H4, H5, H6. reflexivity.
Qed.

Lemma map_rows_of_cells (rows : list JSValue) (cells : list Cells) :
  Forall2 (cells_of_row Number_nonzero Number_toString) rows cells ->
  map_rows rows = Normal (map row_of cells).
Proof.
  induction 1 as [|r c rows cells Hr _ IH]; [reflexivity|].
  cbn [MetaLeadAccountList.map_rows map].
  rewrite (render_row_of_cells r c Hr), IH. reflexivity.
Qed.

Lemma map_rows_cells (rows : list JSValue) (trs : list string) :
  map_rows rows = Normal trs ->
  exists cells,
    Forall2 (cells_of_row Number_nonzero Number_toString) rows cells /\
    trs = map row_of cells.
Proof.
  revert trs. induction rows as [|r rows IH]; intros trs H.
  - inversion H. exists []. split; [constructor | reflexivity].
  - cbn [MetaLeadAccountList.map_rows] in H.
    destruct (render_row r) as [h|e] eqn:Hr; [|discriminate H].
    destruct (map_rows rows) as [t|e] eqn:Hm; [|discriminate H].
    cbn [bind] in H. inversion H; subst trs. clear H.
    destruct (IH t eq_refl) as (cells & HF & ->).
    destruct (render_row_normal r h Hr)
      as (s1 & s2 & s3 & s4 & s5 & c6 & H1 & H2 & H3 & H4 & H5 & H6 & ->).
    exists ({| page_name_text := s1; category_text := s2;
               business_name_text := s3; city_text := s4; country_text := s5;
               tasks_text := c6 |} :: cells).
    split; [|reflexivity].
    constructor; [|exact HF]. repeat split; assumption.
Qed.

(** The table written for a non-empty array whose rows have the cell texts
    [cells]. *)
Lemma render_table_of_cells (frm : Form) (rows : list JSValue)
    (cells : list Cells) :
  JSON_parse (raw_of frm) = Normal (Arr rows) ->
  rows <> [] ->
  Forall2 (cells_of_row Number_nonzero Number_toString) rows cells ->
  render_accounts_table frm =
    (Normal tt,
     set_innerHTML frm
       (table_html ("<tbody>" ++ concat_all (map row_of cells) ++ "</tbody>"))).
Proof.
  intros Hp Hne HF. unfold MetaLeadAccountList.render_accounts_table.
  rewrite Hp. destruct rows as [|r rest]; [now elim Hne|].
  cbn [length_is_falsy rows_map]. rewrite (map_rows_of_cells _ _ HF).
  reflexivity.
Qed.

Lemma render_table_has_cells (frm frm' : Form) (rows : list JSValue) :
  JSON_parse (raw_of frm) = Normal (Arr rows) ->
  rows <> [] ->
  render_accounts_table frm = (Normal tt, frm') ->
  exists cells,
    Forall2 (cells_of_row Number_nonzero Number_toString) rows cells /\
    frm' = set_innerHTML frm
             (table_html ("<tbody>" ++ concat_all (map row_of cells) ++ "</tbody>")).
Proof.
  intros Hp Hne. unfold MetaLeadAccountList.render_accounts_table.
  rewrite Hp. destruct rows as [|r rest]; [now elim Hne|].
  cbn [length_is_falsy rows_map].
  destruct (map_rows (r :: rest)) as [trs|e] eqn:Hm; [|discriminate].
  intros H. inversion H; subst frm'.
  destruct (map_rows_cells _ _ Hm) as (cells & HF & ->).
  exists cells. split; [exact HF | reflexivity].
Qed.

End WithBuiltins.

End RenderFacts.

Module MetaLeadAccountListClaims.

Import MetaLeadAccountList EscapeFacts RenderFacts TableCells.

(** Some runs of the code. *)
Example escape_html_link :
  escape_html "<a href='x'>Tom & Co</a>"
  = "&lt;a href=&#39;x&#39;&gt;Tom &amp; Co&lt;/a&gt;".
Proof. reflexivity. Qed.

Example escape_html_entity_text : escape_html "&lt;" = "&amp;lt;".
Proof. reflexivity. Qed.

Example render_unset_field (old : string) :
  render_accounts_table (fun _ => true) (fun n => n)
    {| accounts_json := None; innerHTML := old |}
  = (Normal tt, {| accounts_json := None; innerHTML := empty_state_html |}).
Proof. reflexivity. Qed.

Example render_truncated_json (old : string) :
  render_accounts_table (fun _ => true) (fun n => n)
    {| accounts_json := Some "[{"; innerHTML := old |}
  = (Normal tt, {| accounts_json := Some "[{"; innerHTML := invalid_json_html |}).
Proof. reflexivity. Qed.



(** C10 (the code at the failing input): [accounts_json = "null"] is valid
    JSON, [JSON.parse] returns [null], and reading [rows.length] throws a
    [TypeError] outside the [try]; the call does not return normally and the
    container is left as it was. *)
Theorem render_accounts_table_null_throws
    (Number_nonzero : string -> bool) (Number_toString : string -> string)
    (container : string) :
  JSON_parse "null" = Normal Null /\
  render_accounts_table Number_nonzero Number_toString
    {| accounts_json := Some "null"; innerHTML := container |}
  = (Throw TypeError, {| accounts_json := Some "null"; innerHTML := container |}).
Proof.
  split; reflexivity.
Qed.

End MetaLeadAccountListClaims.

(** ** Number arithmetic *)

Module DoubleFacts.

Import Double.
Local Open Scope Z_scope.

Lemma pow2_pos (k : Z) : 0 <= k -> 0 < 2 ^ k.
Proof. intros H. apply Z.pow_pos_nonneg; lia. Qed.

(** [ilog2 n d] is the exponent of the ratio: [2 ^ k <= n / d < 2 ^ (k + 1)],
    written without division. *)
Lemma ilog2_spec (n d : Z) :
  0 < n -> 0 < d ->
  let k := ilog2 n d in
  (0 <= k -> d * 2 ^ k <= n < d * 2 ^ (k + 1)) /\
  (k < 0 -> d <= n * 2 ^ (- k) < 2 * d).
Proof.
  intros Hn Hd.
  destruct (Z.log2_spec n Hn) as [Hn1 Hn2].
  destruct (Z.log2_spec d Hd) as [Hd1 Hd2].
  pose proof (Z.log2_nonneg n) as Hln. pose proof (Z.log2_nonneg d) as Hld.
  unfold ilog2. set (ln := Z.log2 n) in *. set (ld := Z.log2 d) in *.
  cbv zeta.
  destruct (Z.leb_spec 0 (ln - ld)) as [Hl|Hl].
  - (* ln = ld + l *)
    set (l := ln - ld) in *.
    assert (Eln : ln = ld + l) by (unfold l; lia).
    assert (Hp : 2 ^ ln = 2 ^ ld * 2 ^ l) by (rewrite Eln; apply Z.pow_add_r; lia).
    assert (Hp1 : 2 ^ (l + 1) = 2 * 2 ^ l) by (rewrite Z.pow_add_r by lia; lia).
    assert (Hp2 : 2 ^ (Z.succ ln) = 2 * 2 ^ ln) by (apply Z.pow_succ_r; lia).
    assert (Hp3 : 2 ^ (Z.succ ld) = 2 * 2 ^ ld) by (apply Z.pow_succ_r; lia).
    pose proof (pow2_pos l Hl) as Hpl. pose proof (pow2_pos ld Hld) as Hpld.
    destruct (Z.leb_spec (d * 2 ^ l) n) as [Ht|Ht].
    + split; [|lia]. intros _. split; [exact Ht|]. rewrite Hp1. nia.
    + split.
      * intros Hk. replace (l - 1 + 1) with l by lia. split; [|exact Ht].
        assert (Hp4 : 2 ^ l = 2 * 2 ^ (l - 1)).
        { replace l with (Z.succ (l - 1)) at 1 by lia. apply Z.pow_succ_r. lia. }
        pose proof (pow2_pos (l - 1) Hk). nia.
      * intros Hk. assert (El : l = 0) by lia. rewrite El in *.
        replace (- (0 - 1)) with 1 by lia. change (2 ^ 1) with 2.
        change (2 ^ 0) with 1 in *. nia.
  - set (j := ld - ln) in *. assert (Hj : 0 < j) by (unfold j; lia).
    replace (- (ln - ld)) with j by (unfold j; lia).
    assert (Eld : ld = ln + j) by (unfold j; lia).
    assert (Hp : 2 ^ ld = 2 ^ ln * 2 ^ j) by (rewrite Eld; apply Z.pow_add_r; lia).
    assert (Hp2 : 2 ^ (Z.succ ln) = 2 * 2 ^ ln) by (apply Z.pow_succ_r; lia).
    assert (Hp3 : 2 ^ (Z.succ ld) = 2 * 2 ^ ld) by (apply Z.pow_succ_r; lia).
    assert (Hpj : 0 < 2 ^ j) by (apply pow2_pos; lia).
    pose proof (pow2_pos ln Hln) as Hpln.
    destruct (Z.leb_spec d (n * 2 ^ j)) as [Ht|Ht].
    + split; [lia|]. intros _.
      replace (- (ln - ld)) with j by (unfold j; lia).
      split; [exact Ht|]. nia.
    + split; [lia|]. intros _.
      replace (- (ln - ld - 1)) with (Z.succ j) by (unfold j; lia).
      rewrite Z.pow_succ_r by lia. nia.
Qed.

Lemma round_half_even_bounds (num den : Z) :
  0 < den ->
  num / den <= round_half_even num den <= num / den + 1 /\
  (round_half_even num den = num / den + 1 -> den <= 2 * (num mod den)).
Proof.
  intros Hden. unfold round_half_even.
  destruct (Z.compare_spec (2 * (num mod den)) den) as [H|H|H].
  - destruct (Z.even (num / den)); split; lia.
  - split; lia.
  - split; lia.
Qed.

(** The significand [nearest] computes for a positive ratio has 53 bits. *)
Lemma significand_range (n d : Z) :
  0 < n -> 0 < d ->
  let e := ilog2 n d - 52 in
  let m := if e <=? 0 then round_half_even (n * 2 ^ (- e)) d
           else round_half_even n (d * 2 ^ e) in
  2 ^ 52 <= m <= 2 ^ 53.
Proof.
  intros Hn Hd. cbv zeta.
  destruct (ilog2_spec n d Hn Hd) as [Hpos Hneg]. cbv zeta in Hpos, Hneg.
  set (k := ilog2 n d) in *.
  destruct (Z.leb_spec (k - 52) 0) as [He|He].
  - (* num = n * 2 ^ (52 - k), den = d *)
    replace (- (k - 52)) with (52 - k) by lia.
    destruct (round_half_even_bounds (n * 2 ^ (52 - k)) d Hd) as [[Hlo Hhi] _].
    assert (Hs : 2 ^ 52 * d <= n * 2 ^ (52 - k) < 2 ^ 53 * d).
    { destruct (Z.lt_ge_cases k 0) as [Hk|Hk].
      - specialize (Hneg Hk).
        replace (52 - k) with (- k + 52) by lia.
        rewrite Z.pow_add_r by lia.
        change (2 ^ 53) with (2 * 2 ^ 52). pose proof (pow2_pos 52). nia.
      - specialize (Hpos Hk).
        assert (E : 2 ^ 52 = 2 ^ k * 2 ^ (52 - k)).
        { rewrite <- Z.pow_add_r by lia. f_equal. lia. }
        rewrite Z.pow_add_r in Hpos by lia. change (2 ^ 1) with 2 in Hpos.
        change (2 ^ 53) with (2 * 2 ^ 52). rewrite E.
        pose proof (pow2_pos k Hk). pose proof (pow2_pos (52 - k)). nia. }
    assert (Hq : 2 ^ 52 <= n * 2 ^ (52 - k) / d < 2 ^ 53).
    { split; [apply Z.div_le_lower_bound; lia | apply Z.div_lt_upper_bound; lia]. }
    lia.
  - specialize (Hpos ltac:(lia)).
    assert (Hden : 0 < d * 2 ^ (k - 52)) by (pose proof (pow2_pos (k - 52)); nia).
    destruct (round_half_even_bounds n (d * 2 ^ (k - 52)) Hden) as [[Hlo Hhi] _].
    assert (E : 2 ^ k = 2 ^ 52 * 2 ^ (k - 52)).
    { rewrite <- Z.pow_add_r by lia. f_equal. lia. }
    rewrite Z.pow_add_r in Hpos by lia. change (2 ^ 1) with 2 in Hpos.
    rewrite E in Hpos.
    assert (Hq : 2 ^ 52 <= n / (d * 2 ^ (k - 52)) < 2 ^ 53).
    { split; [apply Z.div_le_lower_bound; nia | apply Z.div_lt_upper_bound; [lia|]].
      change (2 ^ 53) with (2 * 2 ^ 52). nia. }
    lia.
Qed.

(** Rounding keeps the sign: the floor of the double nearest to a negative
    ratio is negative, and that of a ratio that is not negative is not
    negative. *)
Lemma floor_nearest_negative (n d : Z) :
  n < 0 -> 0 < d -> Math_floor (nearest n d) < 0.
Proof.
  intros Hn Hd. unfold nearest.
  destruct (Z.eqb_spec n 0) as [E|_]; [lia|].
  pose proof (significand_range (Z.abs n) d ltac:(lia) Hd) as Hm. cbv zeta in Hm.
  set (e := ilog2 (Z.abs n) d - 52) in *.
  set (m := if e <=? 0 then _ else _) in *.
  rewrite (Z.sgn_neg n Hn). unfold Math_floor. cbn [significand exponent].
  pose proof (pow2_pos 52 ltac:(lia)).
  destruct (Z.leb_spec 0 e) as [He|He].
  - pose proof (pow2_pos e He). nia.
  - apply Z.div_lt_upper_bound; [apply pow2_pos; lia | lia].
Qed.

Lemma floor_nearest_nonneg (n d : Z) :
  0 <= n -> 0 < d -> 0 <= Math_floor (nearest n d).
Proof.
  intros Hn Hd. unfold nearest.
  destruct (Z.eqb_spec n 0) as [E|E]; [reflexivity|].
  pose proof (significand_range (Z.abs n) d ltac:(lia) Hd) as Hm. cbv zeta in Hm.
  set (e := ilog2 (Z.abs n) d - 52) in *.
  set (m := if e <=? 0 then _ else _) in *.
  rewrite (Z.sgn_pos n ltac:(lia)). unfold Math_floor. cbn [significand exponent].
  pose proof (pow2_pos 52 ltac:(lia)).
  destruct (Z.leb_spec 0 e) as [He|He].
  - pose proof (pow2_pos e He). nia.
  - apply Z.div_pos; [lia | apply pow2_pos; lia].
Qed.

Lemma ilog2_one (n : Z) : 0 < n -> ilog2 n 1 = Z.log2 n.
Proof.
  intros Hn. unfold ilog2. change (Z.log2 1) with 0. rewrite Z.sub_0_r.
  pose proof (Z.log2_nonneg n).
  destruct (Z.leb_spec 0 (Z.log2 n)) as [_|H']; [|lia].
  destruct (Z.log2_spec n Hn) as [H1 _].
  destruct (Z.leb_spec (1 * 2 ^ Z.log2 n) n) as [_|H']; [reflexivity | lia].
Qed.

Lemma round_half_even_one (n : Z) : round_half_even n 1 = n.
Proof.
  unfold round_half_even. rewrite Z.mod_1_r, Z.div_1_r. reflexivity.
Qed.

(** An integer below [2 ^ 53] in magnitude is a double: rounding leaves it
    as it is. *)
Lemma floor_nearest_integer (x : Z) :
  Z.abs x < 2 ^ 53 -> Math_floor (nearest x 1) = x.
Proof.
  intros Hx. unfold nearest.
  destruct (Z.eqb_spec x 0) as [E|E]; [now subst x|].
  rewrite ilog2_one by lia.
  assert (Hl : Z.log2 (Z.abs x) < 53) by (apply Z.log2_lt_pow2; lia).
  destruct (Z.leb_spec (Z.log2 (Z.abs x) - 52) 0) as [_|H']; [|lia].
  rewrite round_half_even_one. unfold Math_floor. cbn [significand exponent].
  set (s := - (Z.log2 (Z.abs x) - 52)).
  assert (Hs : 0 <= s) by (unfold s; lia).
  pose proof (pow2_pos s Hs) as Hp.
  assert (Hval : Z.sgn x * (Z.abs x * 2 ^ s) = x * 2 ^ s).
  { rewrite Z.mul_assoc. f_equal.
    destruct x; reflexivity. }
  rewrite Hval.
  destruct (Z.leb_spec 0 (Z.log2 (Z.abs x) - 52)) as [H0|H0].
  - assert (s = 0) by (unfold s; lia).
    replace (Z.log2 (Z.abs x) - 52) with 0 by lia.
    replace s with 0 by lia. change (2 ^ 0) with 1. lia.
  - fold s. apply Z.div_mul. lia.
Qed.

(** A ratio of at least [2 ^ b] rounds to a double of at least [2 ^ b]. *)
Lemma floor_nearest_large (x d b : Z) :
  0 < d -> 0 <= b -> d * 2 ^ b <= x -> 2 ^ b <= Math_floor (nearest x d).
Proof.
  intros Hd Hb Hx.
  pose proof (pow2_pos b Hb) as Hpb.
  assert (Hxpos : 0 < x) by nia.
  unfold nearest. destruct (Z.eqb_spec x 0) as [E|_]; [lia|].
  rewrite (Z.abs_eq x) by lia.
  pose proof (significand_range x d Hxpos Hd) as Hm. cbv zeta in Hm.
  destruct (ilog2_spec x d Hxpos Hd) as [Hpos Hneg]. cbv zeta in Hpos, Hneg.
  set (k := ilog2 x d) in *.
  assert (Hk : b <= k).
  { destruct (Z.lt_ge_cases k b) as [Hlt|]; [exfalso|assumption].
    destruct (Z.lt_ge_cases k 0) as [Hk0|Hk0].
    - specialize (Hneg Hk0). pose proof (pow2_pos (- k) ltac:(lia)).
      assert (1 < 2 ^ (- k)).
      { apply Z.pow_gt_1; lia. }
      nia.
    - specialize (Hpos Hk0).
      assert (2 ^ (k + 1) <= 2 ^ b) by (apply Z.pow_le_mono_r; lia).
      nia. }
  set (m := if k - 52 <=? 0 then _ else _) in *.
  rewrite (Z.sgn_pos x Hxpos), Z.mul_1_l. unfold Math_floor. cbn [significand exponent].
  destruct (Z.leb_spec 0 (k - 52)) as [He|He].
  - pose proof (pow2_pos (k - 52) He).
    assert (2 ^ b <= 2 ^ k) by (apply Z.pow_le_mono_r; lia).
    assert (E : 2 ^ k = 2 ^ 52 * 2 ^ (k - 52)).
    { rewrite <- Z.pow_add_r by lia. f_equal. lia. }
    nia.
  - replace (- (k - 52)) with (52 - k) by lia.
    apply Z.div_le_lower_bound; [apply pow2_pos; lia|].
    assert (E : 2 ^ 52 = 2 ^ (52 - k) * 2 ^ k).
    { rewrite <- Z.pow_add_r by lia. f_equal. lia. }
    assert (2 ^ b <= 2 ^ k) by (apply Z.pow_le_mono_r; lia).
    pose proof (pow2_pos (52 - k) ltac:(lia)). nia.
Qed.

(** Dividing an integer that is not negative by a divisor below [2 ^ 27]
    and taking the floor is exact as long as the quotient is below
    [2 ^ 27]: the quotient is off the next integer by [1 / d] at least, and
    rounding moves it by less. *)
Lemma floor_nearest_quotient (n d : Z) :
  0 <= n -> 0 < d -> d < 2 ^ 27 -> n < d * 2 ^ 27 ->
  Math_floor (nearest n d) = n / d.
Proof.
  intros Hn Hd Hd27 Hn27. unfold nearest.
  destruct (Z.eqb_spec n 0) as [E|E]; [subst n; reflexivity|].
  assert (Hnpos : 0 < n) by lia.
  rewrite (Z.abs_eq n) by lia. rewrite (Z.sgn_pos n Hnpos).
  destruct (ilog2_spec n d Hnpos Hd) as [Hpos _]. cbv zeta in Hpos.
  set (k := ilog2 n d) in *.
  assert (Hk : k < 27).
  { destruct (Z.lt_ge_cases k 27) as [|Hge]; [assumption|exfalso].
    specialize (Hpos ltac:(lia)).
    assert (2 ^ 27 <= 2 ^ k) by (apply Z.pow_le_mono_r; lia).
    nia. }
  destruct (Z.leb_spec (k - 52) 0) as [_|H']; [|lia].
  unfold Math_floor. cbn [significand exponent].
  destruct (Z.leb_spec 0 (k - 52)) as [H'|_]; [lia|].
  replace (- (k - 52)) with (52 - k) by lia.
  set (P := 2 ^ (52 - k)).
  assert (HP : 2 ^ 26 <= P) by (apply Z.pow_le_mono_r; lia).
  change (2 ^ 26) with 67108864 in HP. change (2 ^ 27) with 134217728 in *.
  destruct (round_half_even_bounds (n * P) d Hd) as [[Hlo Hhi] Hup].
  set (m := round_half_even (n * P) d) in *.
  rewrite Z.mul_1_l.
  pose proof (Z.div_mod n d ltac:(lia)) as En.
  pose proof (Z.mod_pos_bound n d Hd) as HR.
  pose proof (Z.div_mod (n * P) d ltac:(lia)) as EnP.
  pose proof (Z.mod_pos_bound (n * P) d Hd) as Hr.
  set (Q := n / d) in *. set (R := n mod d) in *.
  set (q := n * P / d) in *. set (r := (n * P) mod d) in *.
  symmetry. apply (Z.div_unique m P Q (m - Q * P)); [|lia].
  left.
  assert (HqQ : d * q = d * (Q * P) + (R * P - r)) by nia.
  assert (Hqlo : Q * P <= q) by nia.
  assert (Hqhi : q <= Q * P + P - 1) by nia.
  split; [lia|].
  destruct (Z.eq_dec m (q + 1)) as [Em|Em]; [|lia].
  specialize (Hup Em).
  destruct (Z.eq_dec q (Q * P + P - 1)) as [Eq|Eq]; [exfalso|lia].
  assert (r = d - (d - R) * P) by nia.
  nia.
Qed.

End DoubleFacts.

(** ** The settings form *)

Module SettingsFacts.

Import FacebookLeadAdsSettings SettingsObservations DoubleFacts.
Local Open Scope Z_scope.

(** Unfolds a handler down to the list of its effects. *)
Ltac run_ui :=
  cbv [effects_of doc_after run click refresh on_app_id authorize_facebook
       check_token_status refresh_token test_callback_url copy_to_clipboard
       regenerate_verify_token debug_facebook_token frm_set_authorization_url
       frm_set_access_token_url ui_bind get_doc put_doc emit ret when
       fst snd].

(** The day count is negative when the expiry lies in the past: neither the
    subtraction nor the division rounds a negative number up to zero. *)
Lemma days_remaining_negative (expiry now : Z) :
  expiry < now -> lt_num (days_remaining (TimeValue expiry) now) 0 = true.
Proof.
  intros H. unfold lt_num, days_remaining. apply Z.ltb_lt.
  unfold Double.div, Double.sub.
  apply floor_nearest_negative; [|reflexivity].
  apply floor_nearest_negative; lia.
Qed.

Lemma days_remaining_nonneg (expiry now : Z) :
  now <= expiry ->
  0 <= Double.Math_floor (Double.div (Double.sub expiry now) ms_per_day).
Proof.
  intros H. unfold Double.div, Double.sub.
  apply floor_nearest_nonneg; [|reflexivity].
  apply floor_nearest_nonneg; lia.
Qed.

(** Up to [2 ^ 53] milliseconds ahead the day count is the exact quotient,
    rounded down: the difference is a double, and the division is off by
    less than what separates the quotient from the next integer. *)
Lemma days_remaining_exact (expiry now : Z) :
  0 <= expiry - now < 2 ^ 53 ->
  Double.Math_floor (Double.div (Double.sub expiry now) ms_per_day)
  = (expiry - now) / ms_per_day.
Proof.
  intros H. unfold Double.div, Double.sub.
  rewrite floor_nearest_integer by lia.
  apply floor_nearest_quotient; [lia | reflexivity | reflexivity |].
  change (ms_per_day * 2 ^ 27) with 11596411699200000.
  change (2 ^ 53) with 9007199254740992 in H. lia.
Qed.

(** Further ahead, the day count is what the rounded difference gives,
    [2 ^ 26] days at least. *)
Lemma days_remaining_far (expiry now : Z) :
  2 ^ 53 <= expiry - now ->
  2 ^ 26 <= Double.Math_floor (Double.div (Double.sub expiry now) ms_per_day).
Proof.
  intros H. unfold Double.div, Double.sub.
  apply floor_nearest_large; [reflexivity | lia |].
  assert (H53 : 2 ^ 53 <= Double.Math_floor (Double.nearest (expiry - now) 1)).
  { apply floor_nearest_large; lia. }
  change (ms_per_day * 2 ^ 26) with 5798205849600000.
  change (2 ^ 53) with 9007199254740992 in H53. lia.
Qed.

(** The seven-day threshold is exact. *)
Lemma days_remaining_threshold (expiry now : Z) :
  now <= expiry ->
  Double.Math_floor (Double.div (Double.sub expiry now) ms_per_day) < 7 <->
  expiry < now + 7 * ms_per_day.
Proof.
  intros H. change (7 * ms_per_day) with 604800000.
  destruct (Z.lt_ge_cases (expiry - now) (2 ^ 53)) as [Hnear|Hfar].
  - rewrite days_remaining_exact by lia. change ms_per_day with 86400000.
    split; intros Hd.
    + destruct (Z.lt_ge_cases expiry (now + 604800000)) as [Hc|Hc]; [exact Hc|].
      assert (7 <= (expiry - now) / 86400000)
        by (apply Z.div_le_lower_bound; lia).
      lia.
    + apply Z.div_lt_upper_bound; lia.
  - pose proof (days_remaining_far expiry now Hfar) as Hd.
    change (2 ^ 26) with 67108864 in Hd.
    change (2 ^ 53) with 9007199254740992 in Hfar. lia.
Qed.

(** The buttons of [refresh] write nothing to the dashboard: what it shows
    is decided by the expiry alone. *)
Lemma refresh_dashboard (env : Env) (d : Doc) :
  dashboard (effects_of (refresh env) d) =
  match token_expiry d with
  | Some expiry =>
      let days := days_remaining expiry (now env) in
      if lt_num days 0 then
        [ add_indicator (t_ "Token Expired") "red";
          set_headline_alert
            (t_ "Access token has expired. Please authorize again.") "red" ]
      else if lt_num days 7 then
        [ add_indicator (T "Token Expiring Soon ({0} days)" [arg_of_days days])
            "orange" ]
      else [ add_indicator (T "Token Valid ({0} days)" [arg_of_days days]) "green" ]
  | None =>
      if nonempty (access_token d) then [add_indicator (t_ "Token Active") "green"]
      else []
  end.
Proof.
  run_ui.
  destruct (token_expiry d) as [expiry|].
  - cbv zeta.
    destruct (lt_num (days_remaining expiry (now env)) 0);
      [|destruct (lt_num (days_remaining expiry (now env)) 7)];
      destruct (enabled d), (nonempty (app_id d)), (nonempty (access_token d)),
        (nonempty (webhook_callback_url d)); reflexivity.
  - destruct (enabled d), (nonempty (app_id d)), (nonempty (access_token d)),
      (nonempty (webhook_callback_url d)); reflexivity.
Qed.

Lemma existsb_false_not_in {A} (f : A -> bool) (l : list A) (x : A) :
  existsb f l = false -> f x = true -> ~ In x l.
Proof.
  intros Hl Hx Hin.
  assert (existsb f l = true) by (apply existsb_exists; exists x; tauto).
  congruence.
Qed.

(** Case analysis on whatever the unfolded handler still branches on. *)
Ltac split_cases :=
  repeat match goal with
         | |- context [match ?x with _ => _ end] =>
             lazymatch x with
             | context [match _ with _ => _ end] => fail
             | _ => destruct x eqn:?
             end
         end.

(** No handler but the regeneration itself touches the verify token. *)
Lemma other_handlers_keep_verify_token (env : Env) (d : Doc) (h : Handler) :
  h <> OnClick RegenerateVerifyToken ->
  webhook_verify_token (doc_after (run env h) d) = webhook_verify_token d /\
  existsb touches_verify_token (effects_of (run env h) d) = false.
Proof.
  intros Hh.
  destruct h as [| |[]|]; try congruence; clear Hh;
    run_ui; split_cases; split; reflexivity.
Qed.

Lemma regenerate_effects (env : Env) (d : Doc) :
  effects_of (regenerate_verify_token env) d =
  confirm regenerate_question ::
  (if confirmed env then
     call "regenerate_verify_token" ::
     match regenerate_reply env with
     | Some r => [show_alert [Lit (reply_message r)] "orange"; reload_doc]
     | None => []
     end
   else []).
Proof.
  run_ui. split_cases; reflexivity.
Qed.

Lemma regenerate_doc (env : Env) (d : Doc) :
  doc_after (regenerate_verify_token env) d =
  if confirmed env then
    match regenerate_reply env with
    | Some _ => stored_doc env
    | None => d
    end
  else d.
Proof.
  run_ui. split_cases; reflexivity.
Qed.

Lemma refresh_token_effects (env : Env) (d : Doc) :
  effects_of (refresh_token env) d =
  confirm refresh_question ::
  (if confirmed env then
     call "creqit.meta.FacebookLeadAds.oauth.refresh_token" ::
     match authorization_reply env with
     | Some r =>
         if nonempty (reply_authorization_url r)
         then [set_location_href (reply_authorization_url r)]
         else []
     | None => []
     end
   else []).
Proof.
  run_ui. split_cases; reflexivity.
Qed.

Lemma refresh_token_doc (env : Env) (d : Doc) :
  doc_after (refresh_token env) d = d.
Proof.
  run_ui. split_cases; reflexivity.
Qed.

Lemma nonempty_true (s : string) : nonempty s = true <-> s <> EmptyString.
Proof.
  destruct s; cbv [nonempty is_empty_string negb]; split; intros H;
    try discriminate; try reflexivity.
  exfalso. apply H. reflexivity.
Qed.

(** A click on Check Token Status: the call, then one dialog if the server
    answered. *)
Lemma check_token_status_effects (env : Env) (d : Doc) :
  effects_of (check_token_status env) d =
  call "creqit.meta.FacebookLeadAds.oauth.get_token_info" ::
  match token_info_reply env with
  | Some status =>
      [ msgprint (Some (t_ "Token Status"))
          [Tr (fst (token_status_message status))]
          (Some (snd (token_status_message status))) None ]
  | None => []
  end.
Proof.
  run_ui. destruct (token_info_reply env) as [status|]; [|reflexivity].
  destruct (token_status_message status). reflexivity.
Qed.

Lemma check_token_status_doc (env : Env) (d : Doc) :
  doc_after (check_token_status env) d = d.
Proof.
  run_ui. destruct (token_info_reply env) as [status|]; [|reflexivity].
  destruct (token_status_message status). reflexivity.
Qed.

(** What the callback of [check_token_status] shows for a reply, branch by
    branch. *)
Lemma shows_no_token (status : TokenInfo) :
  has_token status = false ->
  token_status_message status = (t_ "No access token configured", "red").
Proof.
  intros Ht. unfold token_status_message. now rewrite Ht.
Qed.

Lemma shows_expired (status : TokenInfo) :
  has_token status = true -> is_expired status = true ->
  token_status_message status = (expired_text, "red").
Proof.
  intros Ht He. unfold token_status_message. now rewrite Ht, He.
Qed.

Lemma shows_days (status : TokenInfo) :
  has_token status = true -> is_expired status = false ->
  expires_in_days status <> Missing ->
  token_status_message status =
    (valid_text (expires_in_days status) (expires_in_seconds status),
     if member_lt (expires_in_days status) 7 then "orange" else "green").
Proof.
  intros Ht He Hd. unfold token_status_message. rewrite Ht, He. cbn [negb].
  destruct (expires_in_days status); [now elim Hd | reflexivity | reflexivity].
Qed.

Lemma shows_without_days (status : TokenInfo) :
  has_token status = true -> is_expired status = false ->
  expires_in_days status = Missing ->
  token_status_message status =
    if is_long_lived status then (long_lived_text, "green")
    else (t_ "Token is active", "green").
Proof.
  intros Ht He Hd. unfold token_status_message. now rewrite Ht, He, Hd.
Qed.

Lemma dialog_of_reply (env : Env) (d : Doc) (status : TokenInfo)
    (message : Text) (indicator : string) :
  token_info_reply env = Some status ->
  token_status_message status = (message, indicator) ->
  effects_of (check_token_status env) d = token_status_dialog message indicator.
Proof.
  intros Hr Hm. rewrite check_token_status_effects, Hr, Hm.
  reflexivity.
Qed.

End SettingsFacts.

Module SettingsClaims.

Import FacebookLeadAdsSettings SettingsObservations SettingsFacts.
Local Open Scope Z_scope.

(** Some runs of the day count: part of a day is dropped, and for dates
    that lie further apart than doubles tell, the difference is rounded
    before it is divided (the last run: the exact quotient would be
    199999999). *)
Example days_remaining_runs :
  map (fun p => days_remaining (TimeValue (fst p)) (snd p))
    [ (1700259200000, 1700000000000); (1700000000000, 1700000000000);
      (1699999999999, 1700000000000); (1700604799999, 1700000000000);
      (1700604800000, 1700000000000);
      (8639999999999999, -8640000000000000) ]
  = [Some 3; Some 0; Some (-1); Some 6; Some 7; Some 200000000].
Proof. vm_compute. reflexivity. Qed.

(** C1: for every settings document whose [token_expiry] is strictly earlier
    than the current time, the form's [refresh] handler shows the red
    'Token Expired' indicator and the red headline alert that asks to
    authorize again, these two are all it writes to the dashboard, and it
    shows no green indicator. *)
Theorem refresh_expired_token_is_red (env : Env) (d : Doc) (expiry : Z) :
  token_expiry d = Some (TimeValue expiry) ->
  expiry < now env ->
  let shown := effects_of (refresh env) d in
  In (add_indicator (t_ "Token Expired") "red") shown /\
  In (set_headline_alert
        (t_ "Access token has expired. Please authorize again.") "red") shown /\
  dashboard shown =
    [ add_indicator (t_ "Token Expired") "red";
      set_headline_alert
        (t_ "Access token has expired. Please authorize again.") "red" ] /\
  (forall label, ~ In (add_indicator label "green") shown).
Proof.
  intros Hexp Hlt shown.
  assert (Hd : dashboard shown =
    [ add_indicator (t_ "Token Expired") "red";
      set_headline_alert
        (t_ "Access token has expired. Please authorize again.") "red" ]).
  { unfold shown. rewrite refresh_dashboard, Hexp. cbv zeta.
    now rewrite days_remaining_negative. }
  assert (Hin : forall e, In e (dashboard shown) -> In e shown).
  { intros e He. unfold dashboard in He. apply filter_In in He. tauto. }
  repeat split.
  - apply Hin. rewrite Hd. simpl. tauto.
  - apply Hin. rewrite Hd. simpl. tauto.
  - exact Hd.
  - intros label Hg.
    assert (Hg' : In (add_indicator label "green") (dashboard shown)).
    { unfold dashboard. apply filter_In. split; [exact Hg | reflexivity]. }
    rewrite Hd in Hg'. simpl in Hg'.
    destruct Hg' as [Hg'|[Hg'|[]]]; discriminate Hg'.
Qed.

Lemma refresh_expired_token_is_red_witness :
  In (add_indicator (t_ "Token Expired") "red")
     (effects_of (refresh declining_env) sample_doc) /\
  forall label,
    ~ In (add_indicator label "green") (effects_of (refresh declining_env) sample_doc).
Proof.
  pose proof (refresh_expired_token_is_red declining_env sample_doc 1699999990000
                eq_refl eq_refl) as H.
  cbv zeta in H. destruct H as [H1 [_ [_ H4]]]. split; assumption.
Defined.

(** C4, as the claim states it, is false: when the operator declines the
    confirmation, [refresh_token] asks its question and does nothing else;
    nobody is sent to the authorization URL. *)
Lemma refresh_token_declined_goes_nowhere :
  effects_of (refresh_token declining_env) sample_doc = [confirm refresh_question] /\
  ~ (forall env d, exists url,
        In (set_location_href url) (effects_of (refresh_token env) d)).
Proof.
  split; [reflexivity|].
  intros H. destruct (H declining_env sample_doc) as [url Hin].
  simpl in Hin. destruct Hin as [Hin|[]]. discriminate Hin.
Qed.

(** C4, amended: [refresh_token] sends the browser to a URL exactly when the
    operator confirmed the dialog and the server's reply carries a non-empty
    authorization URL, and then to that URL, after the confirmation and the
    server call; in every run the settings document is left as it was (the
    handler stores no token) and the only server method called is
    [oauth.refresh_token]. *)
Theorem refresh_token_reauthorizes (env : Env) (d : Doc) :
  doc_after (refresh_token env) d = d /\
  (forall url,
      In (set_location_href url) (effects_of (refresh_token env) d) <->
      confirmed env = true /\
      exists r, authorization_reply env = Some r /\
                reply_authorization_url r = url /\ url <> EmptyString) /\
  (forall url,
      In (set_location_href url) (effects_of (refresh_token env) d) ->
      effects_of (refresh_token env) d =
        [ confirm refresh_question;
          call "creqit.meta.FacebookLeadAds.oauth.refresh_token";
          set_location_href url ]) /\
  (forall method,
      In (call method) (effects_of (refresh_token env) d) ->
      method = "creqit.meta.FacebookLeadAds.oauth.refresh_token").
Proof.
  split; [apply refresh_token_doc|].
  rewrite refresh_token_effects.
  split; [|split].
  - intros url. split.
    + intros H.
      destruct (confirmed env); [|simpl in H; intuition discriminate].
      destruct (authorization_reply env) as [r|];
        [|simpl in H; intuition discriminate].
      destruct (nonempty (reply_authorization_url r)) eqn:Hn;
        [|simpl in H; intuition discriminate].
      simpl in H. destruct H as [H|[H|[H|[]]]]; try discriminate H.
      inversion H; subst url. split; [reflexivity|].
      exists r. apply nonempty_true in Hn. tauto.
    + intros [Hc [r [Hr [Hu Hne]]]]. rewrite Hc, Hr. subst url.
      apply nonempty_true in Hne. rewrite Hne. simpl. tauto.
  - intros url H.
    destruct (confirmed env); [|simpl in H; intuition discriminate].
    destruct (authorization_reply env) as [r|];
      [|simpl in H; intuition discriminate].
    destruct (nonempty (reply_authorization_url r));
      [|simpl in H; intuition discriminate].
    simpl in H. destruct H as [H|[H|[H|[]]]]; try discriminate H.
    inversion H; subst url. reflexivity.
  - intros m H.
    destruct (confirmed env); [|simpl in H; intuition discriminate].
    destruct (authorization_reply env) as [r|];
      [destruct (nonempty (reply_authorization_url r))|];
      simpl in H; intuition (try discriminate; congruence).
Qed.

Lemma refresh_token_reauthorizes_witness :
  effects_of (refresh_token confirming_env) sample_doc =
    [ confirm refresh_question;
      call "creqit.meta.FacebookLeadAds.oauth.refresh_token";
      set_location_href
        "https://www.facebook.com/v24.0/dialog/oauth?client_id=1234567890" ].
Proof.
  destruct (refresh_token_reauthorizes confirming_env sample_doc)
    as [_ [Hiff [Hall _]]].
  apply Hall. apply Hiff. split; [reflexivity|].
  eexists. split; [reflexivity|]. split; [reflexivity | discriminate].
Defined.

(** C5: every handler of the settings form other than the Regenerate Verify
    Token action leaves [webhook_verify_token] unchanged, requests no
    regeneration, writes no value to the field and reloads no document; and
    the Regenerate action, when the operator declines its confirmation
    dialog, only asks and leaves the document alone: it calls the server
    method, and the form's token changes, only after the operator
    confirmed. *)
Theorem verify_token_stable (env : Env) (d : Doc) :
  (forall h,
      h <> OnClick RegenerateVerifyToken ->
      webhook_verify_token (doc_after (run env h) d) = webhook_verify_token d /\
      ~ In (call "regenerate_verify_token") (effects_of (run env h) d) /\
      (forall v, ~ In (set_value "webhook_verify_token" v) (effects_of (run env h) d)) /\
      ~ In reload_doc (effects_of (run env h) d)) /\
  (confirmed env = false ->
      effects_of (run env (OnClick RegenerateVerifyToken)) d
        = [confirm regenerate_question] /\
      doc_after (run env (OnClick RegenerateVerifyToken)) d = d) /\
  (In (call "regenerate_verify_token")
      (effects_of (run env (OnClick RegenerateVerifyToken)) d) ->
   confirmed env = true) /\
  (webhook_verify_token (doc_after (run env (OnClick RegenerateVerifyToken)) d)
     <> webhook_verify_token d ->
   confirmed env = true).
Proof.
  split; [|split; [|split]].
  - intros h Hh.
    destruct (other_handlers_keep_verify_token env d h Hh) as [Hdoc Heff].
    split; [exact Hdoc|]. split; [|split].
    + apply (existsb_false_not_in _ _ _ Heff). reflexivity.
    + intros v. apply (existsb_false_not_in _ _ _ Heff). reflexivity.
    + apply (existsb_false_not_in _ _ _ Heff). reflexivity.
  - intros Hc. change (run env (OnClick RegenerateVerifyToken))
      with (regenerate_verify_token env).
    rewrite regenerate_effects, regenerate_doc, Hc. split; reflexivity.
  - change (run env (OnClick RegenerateVerifyToken))
      with (regenerate_verify_token env).
    rewrite regenerate_effects. destruct (confirmed env); [reflexivity|].
    intros H. simpl in H. destruct H as [H|[]]. discriminate H.
  - change (run env (OnClick RegenerateVerifyToken))
      with (regenerate_verify_token env).
    rewrite regenerate_doc. destruct (confirmed env); [reflexivity|].
    intros H. now elim H.
Qed.

Lemma verify_token_stable_witness :
  webhook_verify_token (doc_after (run confirming_env OnAppId) sample_doc) = "4f1c2d" /\
  doc_after (run declining_env (OnClick RegenerateVerifyToken)) sample_doc = sample_doc.
Proof.
  destruct (verify_token_stable confirming_env sample_doc) as [Hother _].
  destruct (verify_token_stable declining_env sample_doc) as [_ [Hdecl _]].
  split.
  - destruct (Hother OnAppId) as [H _]; [discriminate | exact H].
  - exact (proj2 (Hdecl eq_refl)).
Defined.




End SettingsClaims.

(** ** Token status *)

Module OAuthClaims.

Import FacebookLeadAdsSettings SettingsObservations SettingsFacts OAuthClient.
Local Open Scope Z_scope.

Lemma exec_check_status (w : World) (token_record : option TokenRecord) :
  exec w (check_status token_record) = (status_at (clock w) token_record, []).
Proof. reflexivity. Qed.




End OAuthClaims.

(** ** Webhook receiver *)

Module WebhookFacts.

Import WebhookReceiver.
Local Open Scope Z_scope.

Section WithProvider.

Variable decode_value : JSValue -> option LeadEvent.
Variable lead_details : string -> string -> option (list (string * string)).
Variable now : Z.
Variable simplify_output : bool.

Local Abbreviation dispatch := (dispatch lead_details now simplify_output).
Local Abbreviation enrich := (enrich lead_details now simplify_output).
Local Abbreviation process_entries :=
  (process_entries decode_value lead_details now simplify_output).

(** Dispatch emits the events in order, counts each on the subscriptions
    and keeps the token. *)
Lemma dispatch_all (evs : list LeadEvent) (r : Receiver) (out : list LeadEvent) :
  fold_left dispatch evs (r, out) =
    ({| subscriptions := count_leads now evs (subscriptions r); token := token r |},
     (out ++ map (enrich (token r)) evs)%list).
Proof.
  revert r out. induction evs as [|ev evs IH]; intros r out.
  - simpl. rewrite app_nil_r. destruct r; reflexivity.
  - cbn [fold_left]. unfold WebhookReceiver.dispatch at 2.
    rewrite IH. cbn [token subscriptions map].
    unfold count_leads. cbn [fold_left]. now rewrite <- app_assoc.
Qed.

Lemma count_leads_app (evs1 evs2 : list LeadEvent) (subs : list WebhookSubscription) :
  count_leads now (evs1 ++ evs2) subs = count_leads now evs2 (count_leads now evs1 subs).
Proof.
  unfold count_leads. apply fold_left_app.
Qed.

(** Best effort: what is dispatched is the events of the well-formed
    entries, in order, and every malformed entry is counted once. *)
Lemma process_entries_spec (entries : list JSValue) (r : Receiver)
    (out : list LeadEvent) (failed : nat) :
  let evs := flat_map (events_of_entry decode_value) entries in
  process_entries entries (r, out) failed =
    ({| subscriptions := count_leads now evs (subscriptions r); token := token r |},
     (out ++ map (enrich (token r)) evs)%list,
     (failed + List.length (filter (is_malformed decode_value) entries))%nat).
Proof.
  revert r out failed. induction entries as [|e entries IH]; intros r out failed.
  - simpl. rewrite app_nil_r, Nat.add_0_r. destruct r; reflexivity.
  - cbn zeta in *. cbn [WebhookReceiver.process_entries flat_map filter].
    unfold events_of_entry at 1 3, is_malformed at 1.
    destruct (decode_entry decode_value e) as [evs|].
    + rewrite dispatch_all, IH. cbn [token subscriptions].
      rewrite count_leads_app, map_app, app_assoc. reflexivity.
    + rewrite IH. cbn [List.length app]. f_equal. lia.
Qed.

End WithProvider.

End WebhookFacts.

Module WebhookClaims.

Import HMAC_SHA256 WebhookReceiver WebhookFacts.
Local Open Scope Z_scope.

(** Known answers: the digest of [abc] (FIPS 180-4) and the second test case
    of RFC 4231. *)
Example sha256_abc :
  hex (sha256 (octets "abc"))
  = "ba7816bf8f01cfea414140de5dae2223b00361a396177a9cb410ff61f20015ad".
Proof. vm_compute. reflexivity. Qed.

Example hmac_sha256_rfc4231_case2 :
  expected_signature "Jefe" "what do ya want for nothing?"
  = "sha256=5bdcc146bf60754e6a042426089575c75a003f089d2739839dec58b964ec3843".
Proof. vm_compute. reflexivity. Qed.

(** C6: the GET handshake returns the challenge, unmodified, if and only if
    the supplied verify token equals the subscription's stored one; for any
    other verify token it answers with the 403 rejection and with no
    challenge at all. *)
Theorem handshake_echoes_iff_token_matches
    (subscription : WebhookSubscription) (supplied challenge : string) :
  (verify_handshake subscription supplied challenge = Challenge challenge
   <-> supplied = verify_token subscription) /\
  (supplied <> verify_token subscription ->
   verify_handshake subscription supplied challenge = HandshakeRejected Forbidden /\
   forall echo, verify_handshake subscription supplied challenge <> Challenge echo).
Proof.
  unfold verify_handshake.
  destruct (String.eqb_spec supplied (verify_token subscription)) as [He|Hne].
  - split; [tauto|]. intros H. contradiction.
  - split.
    + split; [discriminate | contradiction].
    + intros _. split; [reflexivity | discriminate].
Qed.

Lemma handshake_echoes_iff_token_matches_witness :
  verify_handshake sample_subscription "4f1c2d" "abc123" = Challenge "abc123" /\
  verify_handshake sample_subscription "4f1c2D" "abc123" = HandshakeRejected Forbidden.
Proof.
  split.
  - apply (handshake_echoes_iff_token_matches sample_subscription "4f1c2d" "abc123").
    reflexivity.
  - apply (handshake_echoes_iff_token_matches sample_subscription "4f1c2D" "abc123").
    discriminate.
Defined.

(** C7: a POST delivery is admitted exactly when its signature header is
    [sha256=] followed by the hexadecimal HMAC-SHA256 of the raw body under
    the app secret; for every body and header that do not match, the request
    ends REJECTED with SignatureInvalid, whatever the body holds: nothing is
    dispatched, nothing is counted and the receiver is unchanged. *)
Theorem post_with_bad_signature_is_rejected
    (decode_value : JSValue -> option LeadEvent)
    (lead_details : string -> string -> option (list (string * string)))
    (now : Z) (simplify_output : bool) (app_secret body : string)
    (signature_header : option string) (r : Receiver) :
  signature_header <> Some (expected_signature app_secret body) ->
  let d := handle_post decode_value lead_details now simplify_output
             app_secret body signature_header r in
  d = rejected SignatureInvalid r /\
  final d = REJECTED SignatureInvalid /\
  dispatched d = [] /\
  failures d = 0%nat /\
  receiver d = r /\
  final (handle_post decode_value lead_details now simplify_output app_secret body
           (Some (expected_signature app_secret body)) r)
    <> REJECTED SignatureInvalid.
Proof.
  intros Hsig d.
  assert (Hd : d = rejected SignatureInvalid r).
  { unfold d, handle_post, signature_valid.
    destruct signature_header as [h|]; [|reflexivity].
    destruct (String.eqb_spec h (expected_signature app_secret body)) as [->|_];
      [now elim Hsig | reflexivity]. }
  rewrite Hd. repeat split.
  unfold handle_post, signature_valid. rewrite String.eqb_refl. cbn [negb].
  destruct (JSON_parse body) as [[| | | | | |members]|e]; try discriminate.
  destruct (own_property members "entry") as [[| | | | |entries|]|]; try discriminate.
  destruct (process_entries _ _ _ _ _ _ _) as [[r' out] failed]. discriminate.
Qed.

Lemma post_with_bad_signature_is_rejected_witness :
  handle_post leadgen_value no_details 1700000005 true sample_secret sample_body
    (Some "sha256=5bdcc146bf60754e6a042426089575c75a003f089d2739839dec58b964ec3843")
    sample_receiver
  = rejected SignatureInvalid sample_receiver.
Proof.
  apply (post_with_bad_signature_is_rejected leadgen_value no_details 1700000005 true
           sample_secret sample_body).
  vm_compute. discriminate.
Defined.

(** C8: a delivery that passed the signature gate and carries an entry list
    is processed entry by entry: the events dispatched are those of the
    well-formed entries, in order, each counted on its subscription, and
    each malformed entry counts as one failure without affecting the
    others.  For three entries of which exactly the second is malformed, the
    other two holding one lead each, exactly two LeadEvents are dispatched
    and one failure is counted. *)
Theorem batch_entries_are_isolated
    (decode_value : JSValue -> option LeadEvent)
    (lead_details : string -> string -> option (list (string * string)))
    (now : Z) (simplify_output : bool) (app_secret body : string)
    (signature_header : option string) (r : Receiver)
    (members : list (string * JSValue)) (entries : list JSValue) :
  signature_valid app_secret body signature_header = true ->
  JSON_parse body = Normal (Obj members) ->
  own_property members "entry" = Some (Arr entries) ->
  let d := handle_post decode_value lead_details now simplify_output
             app_secret body signature_header r in
  final d = DISPATCHED /\
  dispatched d =
    map (enrich lead_details now simplify_output (token r))
        (flat_map (events_of_entry decode_value) entries) /\
  failures d = List.length (filter (is_malformed decode_value) entries) /\
  subscriptions (receiver d) =
    count_leads now (flat_map (events_of_entry decode_value) entries)
      (subscriptions r) /\
  (forall e1 e2 e3 ev1 ev3,
      entries = [e1; e2; e3] ->
      decode_entry decode_value e1 = Some [ev1] ->
      decode_entry decode_value e2 = None ->
      decode_entry decode_value e3 = Some [ev3] ->
      dispatched d =
        [ enrich lead_details now simplify_output (token r) ev1;
          enrich lead_details now simplify_output (token r) ev3 ] /\
      List.length (dispatched d) = 2%nat /\
      failures d = 1%nat).
Proof.
  intros Hsig Hparse Hentry d.
  assert (Hd : d =
    {| final := DISPATCHED;
       receiver :=
         {| subscriptions :=
              count_leads now (flat_map (events_of_entry decode_value) entries)
                (subscriptions r);
            token := token r |};
       dispatched :=
         map (enrich lead_details now simplify_output (token r))
           (flat_map (events_of_entry decode_value) entries);
       failures := List.length (filter (is_malformed decode_value) entries) |}).
  { unfold d, handle_post. rewrite Hsig, Hparse, Hentry. cbn [negb].
    rewrite process_entries_spec. reflexivity. }
  rewrite Hd. cbn [final dispatched failures receiver subscriptions].
  repeat (split; [reflexivity|]).
  intros e1 e2 e3 ev1 ev3 -> H1 H2 H3.
  cbn [flat_map filter]. unfold events_of_entry, is_malformed.
  rewrite H1, H2, H3. repeat split.
Qed.

Lemma batch_entries_are_isolated_witness :
  let d := handle_post leadgen_value no_details 1700000005 true sample_secret
             sample_body (Some (expected_signature sample_secret sample_body))
             sample_receiver in
  List.length (dispatched d) = 2%nat /\
  failures d = 1%nat /\
  map lead_count (subscriptions (receiver d)) = [9].
Proof.
  pose proof (batch_entries_are_isolated leadgen_value no_details 1700000005 true
                sample_secret sample_body
                (Some (expected_signature sample_secret sample_body))
                sample_receiver sample_members sample_entries) as H.
  cbv zeta in *.
  destruct H as [_ [_ [_ [Hsubs Hthree]]]];
    [vm_compute; reflexivity | vm_compute; reflexivity | vm_compute; reflexivity |].
  destruct (Hthree _ _ _ _ _ eq_refl eq_refl eq_refl eq_refl) as [_ [Hlen Hfail]].
  split; [exact Hlen|]. split; [exact Hfail|].
  rewrite Hsubs. vm_compute. reflexivity.
Defined.

End WebhookClaims.

(** ** More on [escape_html] *)

Module EscapeMore.

Import MetaLeadAccountList EscapeFacts EntityDecoding.

Lemma string_length_app (a b : string) :
  String.length (a ++ b) = String.length a + String.length b.
Proof.
  induction a as [|x a IH]; simpl; [reflexivity|]. now rewrite IH.
Qed.

(** One character of input, escaped, is read back with one unit of fuel. *)
Lemma unescape_fuel_escape_char (fuel : nat) (a : ascii) (t : string) :
  unescape_fuel (S fuel) (escape_char a ++ t) = String a (unescape_fuel fuel t).
Proof.
  unfold escape_char.
  destruct (Ascii.eqb_spec a amp_c) as [->|H1]; [reflexivity|].
  destruct (Ascii.eqb_spec a lt_c) as [->|H2]; [reflexivity|].
  destruct (Ascii.eqb_spec a gt_c) as [->|H3]; [reflexivity|].
  destruct (Ascii.eqb_spec a dq_c) as [->|H4]; [reflexivity|].
  destruct (Ascii.eqb_spec a sq_c) as [->|H5]; [reflexivity|].
  assert (Hd : decode_entity (String a t) = None).
  { unfold decode_entity. cbn [starts_with].
    replace (Ascii.eqb "&" a) with false; [reflexivity|].
    symmetry. apply Ascii.eqb_neq. intros E. apply H1. now rewrite <- E. }
  cbn [str1 append unescape_fuel]. now rewrite Hd.
Qed.

Lemma escape_char_length (a : ascii) :
  String.length (escape_char a) = 1 + overhead_of a.
Proof.
  unfold escape_char, overhead_of.
  repeat match goal with
         | |- context [Ascii.eqb a ?c] => destruct (Ascii.eqb a c)
         end; reflexivity.
Qed.

Lemma unescape_fuel_escape_html (s : string) (fuel : nat) :
  String.length s <= fuel -> unescape_fuel fuel (escape_html s) = s.
Proof.
  revert fuel. induction s as [|a s IH]; intros fuel Hf.
  - destruct fuel; reflexivity.
  - destruct fuel as [|fuel]; [simpl in Hf; lia|].
    rewrite escape_html_cons, unescape_fuel_escape_char.
    rewrite IH; [reflexivity | simpl in Hf; lia].
Qed.

Lemma escape_html_length (s : string) :
  String.length (escape_html s) = String.length s + overhead s.
Proof.
  induction s as [|a s IH]; [reflexivity|].
  rewrite escape_html_cons, string_length_app, escape_char_length, IH.
  simpl. lia.
Qed.

Lemma overhead_of_bound (a : ascii) : overhead_of a <= 5.
Proof.
  unfold overhead_of.
  repeat match goal with
         | |- context [Ascii.eqb a ?c] => destruct (Ascii.eqb a c)
         end; lia.
Qed.

Lemma overhead_of_zero (a : ascii) : overhead_of a = 0 <-> is_special a = false.
Proof.
  unfold overhead_of, is_special.
  repeat match goal with
         | |- context [Ascii.eqb a ?c] => destruct (Ascii.eqb a c)
         end; simpl; split; intros H; try reflexivity; try discriminate.
Qed.

Lemma overhead_zero (s : string) : overhead s = 0 <-> has_special s = false.
Proof.
  induction s as [|a s IH]; simpl; [tauto|].
  rewrite orb_false_iff, <- IH, <- overhead_of_zero. lia.
Qed.

(** X1: reading the five entities back undoes [escape_html], so escaping
    loses nothing: two texts with the same escaped form are the same
    text. *)
Theorem unescape_escape_html :
  (forall s : string, unescape_html (escape_html s) = s) /\
  (forall a b : string, escape_html a = escape_html b -> a = b).
Proof.
  assert (H : forall s, unescape_html (escape_html s) = s).
  { intros s. unfold unescape_html. apply unescape_fuel_escape_html.
    rewrite escape_html_length. lia. }
  split; [exact H|].
  intros a b E. rewrite <- (H a), <- (H b). now rewrite E.
Qed.

(** X2: the escaped text is longer than the text by exactly 4 for each [&]
    and single quote, 3 for each [<] and [>] and 5 for each double quote;
    it is never shorter than the text and at most six times as long. *)
Theorem escape_html_length_bounds (s : string) :
  String.length (escape_html s) = String.length s + overhead s /\
  String.length s <= String.length (escape_html s) /\
  String.length (escape_html s) <= 6 * String.length s.
Proof.
  rewrite escape_html_length. split; [reflexivity|]. split; [lia|].
  assert (overhead s <= 5 * String.length s); [|lia].
  induction s as [|a s IH]; simpl; [lia|].
  pose proof (overhead_of_bound a). lia.
Qed.

(** X3: [escape_html] returns its argument unchanged exactly when the
    argument contains none of the five characters it replaces. *)
Theorem escape_html_fixed_points (s : string) :
  escape_html s = s <-> has_special s = false.
Proof.
  split.
  - intros E. apply overhead_zero.
    pose proof (escape_html_length s) as L. rewrite E in L. lia.
  - induction s as [|a s IH]; [reflexivity|].
    simpl. intros H. apply orb_false_iff in H. destruct H as [Ha Hs].
    rewrite escape_html_cons, (IH Hs).
    unfold is_special in Ha. unfold escape_char.
    repeat (apply orb_false_iff in Ha; destruct Ha as [Ha ?]).
    repeat match goal with
           | E : Ascii.eqb a ?c = false |- _ => rewrite E; clear E
           end.
    reflexivity.
Qed.

(** X4: escaping a concatenation is concatenating the escaped parts, so a
    text can be escaped piece by piece. *)
Theorem escape_html_concat (a b : string) :
  escape_html (a ++ b) = escape_html a ++ escape_html b.
Proof.
  induction a as [|x a IH]; [reflexivity|].
  cbn [append]. rewrite !escape_html_cons, IH.
  now rewrite string_app_assoc.
Qed.

End EscapeMore.

(** ** More on [render_accounts_table] *)

Module RenderMore.

Import MetaLeadAccountList EscapeFacts RenderFacts Renderable.

Lemma count_char_app (c : ascii) (a b : string) :
  count_char c (a ++ b) = count_char c a + count_char c b.
Proof.
  induction a as [|x a IH]; simpl; [reflexivity|]. rewrite IH. lia.
Qed.

Lemma count_char_absent (c : ascii) (s : string) :
  occurs c s = false -> count_char c s = 0.
Proof.
  induction s as [|x s IH]; simpl; [reflexivity|].
  intros H. apply orb_false_iff in H. destruct H as [Hx Hs].
  now rewrite Hx, (IH Hs).
Qed.

Section WithBuiltins.

Variable Number_nonzero : string -> bool.
Variable Number_toString : string -> string.

Local Abbreviation ToString := (ToString Number_toString).
Local Abbreviation or_else := (or_else Number_nonzero).
Local Abbreviation cell_text := (cell_text Number_nonzero Number_toString).
Local Abbreviation escaped_cell := (escaped_cell Number_nonzero Number_toString).
Local Abbreviation tasks_cell := (tasks_cell Number_nonzero Number_toString).
Local Abbreviation render_row := (render_row Number_nonzero Number_toString).
Local Abbreviation map_rows := (map_rows Number_nonzero Number_toString).
Local Abbreviation rows_map := (rows_map Number_nonzero Number_toString).
Local Abbreviation render_accounts_table :=
  (render_accounts_table Number_nonzero Number_toString).

Lemma join_with_decided (sep : string) (l : list JSValue) :
  Forall (fun v => decided_by (stringifies v) (ToString v)) l ->
  decided_by (forallb stringifies l) (join_with ToString sep l).
Proof.
  induction 1 as [|x rest Hx _ IH]; [reflexivity|].
  cbn [join_with forallb]. fold (join_with ToString sep rest).
  assert (Hfirst : decided_by (stringifies x)
            (match x with
             | Undefined | Null => Normal EmptyString
             | _ => ToString x
             end)).
  { destruct x; try exact Hx; reflexivity. }
  destruct (match x with
            | Undefined | Null => Normal EmptyString
            | _ => ToString x
            end) as [first|e]; cbn [bind decided_by] in *.
  - rewrite Hfirst. cbn [andb].
    destruct rest as [|y rest']; [reflexivity|].
    destruct (join_with ToString sep (y :: rest')) as [others|e];
      cbn [bind decided_by] in *; exact IH.
  - destruct Hfirst as [-> ->]. split; reflexivity.
Qed.

Lemma ToString_decided : forall v, decided_by (stringifies v) (ToString v).
Proof.
  fix IH 1. intros v.
  destruct v as [| |b|n|s|items|members]; try reflexivity.
  - destruct b; reflexivity.
  - change (decided_by (forallb stringifies items)
              (join_with ToString "," items)).
    apply join_with_decided.
    exact ((fix all (l : list JSValue)
              : Forall (fun v => decided_by (stringifies v) (ToString v)) l :=
              match l with
              | [] => Forall_nil _
              | x :: rest => Forall_cons x (IH x) (all rest)
              end) items).
  - cbn [MetaLeadAccountList.ToString stringifies].
    destruct (has_own members "toString"); [split; reflexivity | reflexivity].
Qed.

Lemma stringifies_or_else (v : JSValue) :
  stringifies (or_else v (Str EmptyString)) = stringifies v.
Proof.
  unfold MetaLeadAccountList.or_else.
  destruct (truthy Number_nonzero v) eqn:Ht; [reflexivity|].
  destruct v; try reflexivity; discriminate Ht.
Qed.

Lemma bind_decided {A B} (ok1 ok2 : bool) (c : completion A)
    (k : A -> completion B) :
  decided_by ok1 c -> (forall a, decided_by ok2 (k a)) ->
  decided_by (ok1 && ok2) (bind c k).
Proof.
  destruct c as [a|e]; cbn [bind decided_by].
  - intros -> Hk. exact (Hk a).
  - intros [-> ->] _. split; reflexivity.
Qed.

Lemma cell_text_decided (members : list (string * JSValue)) (name : string) :
  decided_by (member_stringifies members name) (cell_text (Obj members) name).
Proof.
  unfold MetaLeadAccountList.cell_text, member_stringifies, get_member.
  destruct (own_property members name) as [v|]; cbn [bind].
  - rewrite <- stringifies_or_else. apply ToString_decided.
  - reflexivity.
Qed.

Lemma escaped_cell_decided (members : list (string * JSValue)) (name : string) :
  decided_by (member_stringifies members name) (escaped_cell (Obj members) name).
Proof.
  unfold MetaLeadAccountList.escaped_cell.
  pose proof (cell_text_decided members name) as H.
  destruct (cell_text (Obj members) name); exact H.
Qed.

Lemma tasks_cell_decided (members : list (string * JSValue)) :
  decided_by (member_stringifies members "tasks") (tasks_cell (Obj members)).
Proof.
  unfold MetaLeadAccountList.tasks_cell, member_stringifies, get_member.
  destruct (own_property members "tasks") as [v|]; cbn [bind].
  - destruct v; try (rewrite <- stringifies_or_else; apply ToString_decided).
    apply join_with_decided. apply Forall_forall. intros x _.
    apply ToString_decided.
  - reflexivity.
Qed.

(** The arrow function returns exactly for the rows [row_renders] accepts. *)
Lemma render_row_decided (r : JSValue) :
  decided_by (row_renders r) (render_row r).
Proof.
  destruct r as [| |b|n|s|items|members];
    try (split; reflexivity); try reflexivity.
  unfold MetaLeadAccountList.render_row, row_renders. cbn [forallb].
  repeat (apply bind_decided; [apply escaped_cell_decided | intros ?]).
  apply bind_decided; [apply tasks_cell_decided | intros ?; reflexivity].
Qed.

Lemma map_rows_decided (items : list JSValue) :
  decided_by (forallb row_renders items) (map_rows items) /\
  (forall trs, map_rows items = Normal trs -> List.length trs = List.length items).
Proof.
  induction items as [|r items [IH IHlen]]; [split; [reflexivity|]|].
  { intros trs H. inversion H. reflexivity. }
  cbn [MetaLeadAccountList.map_rows forallb].
  pose proof (render_row_decided r) as Hr.
  destruct (render_row r) as [h|e]; cbn [bind decided_by] in *.
  - rewrite Hr. cbn [andb].
    destruct (map_rows items) as [t|e]; cbn [bind decided_by] in *.
    + split; [exact IH|]. intros trs H. inversion H. simpl.
      now rewrite (IHlen t eq_refl).
    + split; [exact IH|]. intros trs H. discriminate H.
  - destruct Hr as [-> ->]. split; [split; reflexivity|].
    intros trs H. discriminate H.
Qed.

Lemma row_template_tags (c1 c2 c3 c4 c5 c6 : string) :
  count_char lt_c (row_template c1 c2 c3 c4 c5 c6) =
  14 + (count_char lt_c c1 + count_char lt_c c2 + count_char lt_c c3
        + count_char lt_c c4 + count_char lt_c c5 + count_char lt_c c6).
Proof.
  unfold row_template. cbn [concat_all].
  rewrite !count_char_app.
  change (count_char lt_c nl) with 0.
  change (count_char lt_c (indent 8)) with 0.
  change (count_char lt_c (indent 12)) with 0.
  change (count_char lt_c (indent 4)) with 0.
  change (count_char lt_c "<tr>") with 1.
  change (count_char lt_c "</tr>") with 1.
  change (count_char lt_c "<td>") with 1.
  change (count_char lt_c "</td>") with 1.
  change (count_char lt_c EmptyString) with 0.
  lia.
Qed.

(** The tags of a rendered row are those of the template and of the tasks
    cell: the five escaped cells bring none. *)
Lemma render_row_tags (r : JSValue) (html : string) :
  render_row r = Normal html ->
  exists c6, tasks_cell r = Normal c6 /\
             count_char lt_c html = 14 + count_char lt_c c6.
Proof.
  intros H. apply render_row_normal in H.
  destruct H as (s1 & s2 & s3 & s4 & s5 & c6 & _ & _ & _ & _ & _ & H6 & ->).
  exists c6. split; [exact H6|].
  rewrite row_template_tags.
  rewrite !(count_char_absent _ _ (escape_html_no_lt _)). lia.
Qed.

Lemma map_rows_tags (items : list JSValue) (trs : list string) :
  map_rows items = Normal trs ->
  (forall r c6, In r items -> tasks_cell r = Normal c6 -> occurs lt_c c6 = false) ->
  count_char lt_c (concat_all trs) = 14 * List.length items.
Proof.
  revert trs. induction items as [|r items IH]; intros trs H Hclean.
  - inversion H. reflexivity.
  - cbn [MetaLeadAccountList.map_rows] in H.
    destruct (render_row r) as [h|e] eqn:Hr; [|discriminate H].
    destruct (map_rows items) as [t|e] eqn:Hm; [|discriminate H].
    cbn [bind] in H. inversion H; subst trs. clear H.
    cbn [concat_all List.length]. rewrite count_char_app.
    rewrite (IH t eq_refl); [|intros r' c6 Hin; apply Hclean; now right].
    destruct (render_row_tags r h Hr) as [c6 [H6 ->]].
    rewrite (count_char_absent _ _ (Hclean r c6 (or_introl eq_refl) H6)). lia.
Qed.

Lemma table_html_tags (tbody : string) :
  count_char lt_c (table_html tbody) = 20 + count_char lt_c tbody.
Proof.
  unfold table_html. rewrite !count_char_app.
  change (count_char lt_c dq) with 0.
  change (count_char lt_c thead) with 16.
  change (count_char lt_c "<div class=") with 1.
  change (count_char lt_c "table-responsive") with 0.
  change (count_char lt_c "><table class=") with 1.
  change (count_char lt_c "table table-bordered") with 0.
  change (count_char lt_c " style=") with 0.
  change (count_char lt_c "margin-top:8px;") with 0.
  change (count_char lt_c ">") with 0.
  change (count_char lt_c "</table></div>") with 2.
  lia.
Qed.

Lemma tbody_tags (rows : string) :
  count_char lt_c ("<tbody>" ++ rows ++ "</tbody>") = 2 + count_char lt_c rows.
Proof.
  rewrite !count_char_app.
  change (count_char lt_c "<tbody>") with 1.
  change (count_char lt_c "</tbody>") with 1. lia.
Qed.

Lemma join_strings_tags (ts : list string) :
  count_char lt_c (join_strings ", " ts) = sum_counts lt_c ts.
Proof.
  induction ts as [|t ts IH]; [reflexivity|].
  destruct ts as [|u ts].
  - simpl. lia.
  - change (join_strings ", " (t :: u :: ts))
      with (t ++ ", " ++ join_strings ", " (u :: ts)).
    rewrite !count_char_app, IH. reflexivity.
Qed.

Lemma join_with_strings (sep : string) (ts : list string) :
  join_with ToString sep (map Str ts) = Normal (join_strings sep ts).
Proof.
  induction ts as [|t ts IH]; [reflexivity|].
  cbn [map join_with]. fold (join_with ToString sep (map Str ts)).
  cbn [MetaLeadAccountList.ToString bind].
  destruct ts as [|u ts]; [reflexivity|].
  cbn [map] in *. rewrite IH. reflexivity.
Qed.

End WithBuiltins.

End RenderMore.

Module RenderExtras.

Import MetaLeadAccountList EscapeFacts RenderFacts Renderable RenderMore.

Section WithBuiltins.

Variable Number_nonzero : string -> bool.
Variable Number_toString : string -> string.

Local Abbreviation tasks_cell := (tasks_cell Number_nonzero Number_toString).
Local Abbreviation render_row := (render_row Number_nonzero Number_toString).
Local Abbreviation map_rows := (map_rows Number_nonzero Number_toString).
Local Abbreviation render_accounts_table :=
  (render_accounts_table Number_nonzero Number_toString).

(** X5: [render_accounts_table] never changes [accounts_json]; the only
    exception that leaves it is a [TypeError] (the [SyntaxError] of
    [JSON.parse] is always caught), and when it throws the container is
    untouched; when it returns, the container holds the invalid-JSON
    message, the empty-state message or a table, nothing else. *)
Theorem render_accounts_table_exception_safety (frm : Form) :
  accounts_json (snd (render_accounts_table frm)) = accounts_json frm /\
  (forall e, fst (render_accounts_table frm) = Throw e ->
             e = TypeError /\ snd (render_accounts_table frm) = frm) /\
  (forall u, fst (render_accounts_table frm) = Normal u ->
             innerHTML (snd (render_accounts_table frm)) = invalid_json_html \/
             innerHTML (snd (render_accounts_table frm)) = empty_state_html \/
             exists tbody,
               innerHTML (snd (render_accounts_table frm)) = table_html tbody).
Proof.
  unfold MetaLeadAccountList.render_accounts_table.
  destruct (JSON_parse (raw_of frm)) as [rows|e0].
  2:{ cbn [fst snd]. split; [reflexivity|]. split; [discriminate|]. tauto. }
  destruct (length_is_falsy Number_nonzero rows) as [[|]|e1] eqn:Hlen.
  - cbn [fst snd]. split; [reflexivity|]. split; [discriminate|]. tauto.
  - assert (Hmap : forall e,
               rows_map Number_nonzero Number_toString rows = Throw e ->
               e = TypeError).
    { destruct rows; cbn [rows_map]; try (intros e H; now inversion H).
      intros e H.
      pose proof (proj1 (map_rows_decided Number_nonzero Number_toString items)) as D.
      rewrite H in D. exact (proj2 D). }
    destruct (rows_map Number_nonzero Number_toString rows) as [trs|e2].
    + cbn [fst snd]. split; [reflexivity|]. split; [discriminate|].
      intros _ _. right. right. eexists. reflexivity.
    + cbn [fst snd]. split; [reflexivity|]. split; [|discriminate].
      intros e H. inversion H; subst e. split; [now apply Hmap | reflexivity].
  - cbn [fst snd]. split; [reflexivity|]. split; [|discriminate].
    intros e H. inversion H; subst e. split; [|reflexivity].
    destruct rows; cbn [length_is_falsy] in Hlen; try discriminate Hlen;
      try (now inversion Hlen).
    destruct (own_property members "length"); discriminate Hlen.
Qed.

(** X6: when [accounts_json] parses to an array, [render_accounts_table]
    returns exactly when every row is neither [null] nor holds, in one of
    its six members, an object with an own [toString] member (directly or
    inside arrays); and then, for a non-empty array, it writes a table with
    one rendered row per element. *)
Theorem render_accounts_table_on_arrays (frm : Form) (items : list JSValue) :
  JSON_parse (raw_of frm) = Normal (Arr items) ->
  (fst (render_accounts_table frm) = Normal tt <->
   forallb row_renders items = true) /\
  (forallb row_renders items = true -> items <> [] ->
   exists trs,
     map_rows items = Normal trs /\
     List.length trs = List.length items /\
     snd (render_accounts_table frm) =
       set_innerHTML frm (table_html ("<tbody>" ++ concat_all trs ++ "</tbody>"))).
Proof.
  intros Hp. unfold MetaLeadAccountList.render_accounts_table. rewrite Hp.
  destruct items as [|r items].
  { cbn [length_is_falsy fst forallb]. split; [tauto|]. intros _ H. now elim H. }
  cbn [length_is_falsy rows_map].
  destruct (map_rows_decided Number_nonzero Number_toString (r :: items))
    as [D Dlen].
  destruct (map_rows (r :: items)) as [trs|e] eqn:Hm; cbn [decided_by] in D.
  - cbn [fst snd]. split; [tauto|]. intros _ _.
    exists trs. split; [reflexivity|]. split; [now apply Dlen | reflexivity].
  - destruct D as [D _]. cbn [fst snd]. rewrite D. split.
    + split; intros H; discriminate H.
    + intros H. discriminate H.
Qed.

(** X7: in a table rendered from rows whose tasks cell holds no [<], the
    number of [<] characters, hence of tags, is 22 plus 14 for each row,
    whatever the five escaped members contain: they cannot add markup. *)
Theorem rendered_table_tag_count (frm frm' : Form) (items : list JSValue) :
  JSON_parse (raw_of frm) = Normal (Arr items) ->
  items <> [] ->
  render_accounts_table frm = (Normal tt, frm') ->
  (forall r c6, In r items -> tasks_cell r = Normal c6 -> occurs lt_c c6 = false) ->
  count_char lt_c (innerHTML frm') = 22 + 14 * List.length items.
Proof.
  intros Hp Hne Hr Hclean.
  unfold MetaLeadAccountList.render_accounts_table in Hr. rewrite Hp in Hr.
  destruct items as [|r items]; [now elim Hne|].
  cbn [length_is_falsy rows_map] in Hr.
  destruct (map_rows (r :: items)) as [trs|e] eqn:Hm; [|discriminate Hr].
  injection Hr as <-. cbn [innerHTML set_innerHTML].
  rewrite table_html_tags.
  transitivity (20 + (2 + count_char lt_c (concat_all trs))).
  - f_equal. exact (tbody_tags (concat_all trs)).
  - rewrite (map_rows_tags Number_nonzero Number_toString _ _ Hm Hclean). lia.
Qed.

(** X8: the tasks cell is not escaped: when [tasks] is an array of strings,
    the cell is the strings joined by a comma and a space, as they are, and
    every [<] in a task is a [<] of the rendered row, beside the 14 of the
    template. *)
Theorem tasks_are_not_escaped (members : list (string * JSValue))
    (ts : list string) (html : string) :
  own_property members "tasks" = Some (Arr (map Str ts)) ->
  render_row (Obj members) = Normal html ->
  tasks_cell (Obj members) = Normal (join_strings ", " ts) /\
  count_char lt_c html = 14 + sum_counts lt_c ts.
Proof.
  intros Ht Hr.
  assert (Hc : tasks_cell (Obj members) = Normal (join_strings ", " ts)).
  { unfold MetaLeadAccountList.tasks_cell, get_member. rewrite Ht. cbn [bind].
    apply join_with_strings. }
  split; [exact Hc|].
  destruct (render_row_tags Number_nonzero Number_toString _ _ Hr) as [c6 [H6 ->]].
  rewrite Hc in H6. inversion H6. now rewrite join_strings_tags.
Qed.

(** X25: a parsed [accounts_json] that is not an array never gives a table:
    a number, a boolean, an empty string or an object without a truthy
    [length] member is shown as the empty-state message, like an empty list,
    and [null], a non-empty string or an object with a truthy [length]
    makes the function throw a [TypeError] and leave the container as it
    was. *)
Theorem render_accounts_table_on_non_arrays (frm : Form) (rows : JSValue) :
  JSON_parse (raw_of frm) = Normal rows ->
  (forall items, rows <> Arr items) ->
  render_accounts_table frm =
    if shown_as_empty Number_nonzero rows
    then (Normal tt, set_innerHTML frm empty_state_html)
    else (Throw TypeError, frm).
Proof.
  intros Hp Hna. unfold MetaLeadAccountList.render_accounts_table. rewrite Hp.
  destruct rows as [| |b|n|s|items|members]; try reflexivity.
  - now elim (Hna items).
  - cbn [length_is_falsy shown_as_empty].
    destruct (own_property members "length") as [v|]; [|reflexivity].
    destruct (truthy Number_nonzero v); reflexivity.
Qed.

End WithBuiltins.

Lemma render_accounts_table_on_non_arrays_witness :
  render_accounts_table (fun _ => true) (fun n => n)
    {| accounts_json := Some "{}"; innerHTML := "<p>old</p>" |}
  = (Normal tt, {| accounts_json := Some "{}"; innerHTML := empty_state_html |}).
Proof.
  apply (render_accounts_table_on_non_arrays (fun _ => true) (fun n => n)
           {| accounts_json := Some "{}"; innerHTML := "<p>old</p>" |} (Obj [])).
  - vm_compute. reflexivity.
  - discriminate.
Defined.

Lemma render_accounts_table_on_arrays_witness :
  fst (render_accounts_table (fun _ => true) (fun n => n)
         MetaLeadAccountForm.sample_form) = Normal tt.
Proof.
  apply (render_accounts_table_on_arrays (fun _ => true) (fun n => n)
           MetaLeadAccountForm.sample_form MetaLeadAccountForm.sample_accounts).
  - vm_compute. reflexivity.
  - vm_compute. reflexivity.
Defined.

Lemma rendered_table_tag_count_witness :
  count_char lt_c
    (innerHTML (snd (render_accounts_table (fun _ => true) (fun n => n)
                       MetaLeadAccountForm.sample_form))) = 50.
Proof.
  apply (rendered_table_tag_count (fun _ => true) (fun n => n)
           MetaLeadAccountForm.sample_form _ MetaLeadAccountForm.sample_accounts).
  - vm_compute. reflexivity.
  - discriminate.
  - vm_compute. reflexivity.
  - intros r c6 [<-|[<-|[]]] H; vm_compute in H; inversion H; reflexivity.
Defined.

Lemma tasks_are_not_escaped_witness :
  tasks_cell (fun _ => true) (fun n => n) sample_row = Normal "MANAGE, ADVERTISE".
Proof.
  eapply (tasks_are_not_escaped (fun _ => true) (fun n => n) _
            ["MANAGE"; "ADVERTISE"]).
  - reflexivity.
  - reflexivity.
Defined.

End RenderExtras.

(** ** More on the settings form *)

Module SettingsExtras.

Import FacebookLeadAdsSettings SettingsFacts SettingsObservations.
Local Open Scope Z_scope.

Lemma nonempty_false (s : string) : nonempty s = false <-> s = EmptyString.
Proof.
  destruct s; cbv [nonempty is_empty_string negb]; split; intros H;
    try reflexivity; discriminate H.
Qed.

(** X9: the [refresh] handler offers an action as a button exactly when the
    integration is enabled, an app id is set and the action's own field is
    filled (the access token for Refresh Token, the webhook callback URL
    for the three webhook buttons); the clock and the token expiry play no
    part. *)
Theorem refresh_offers (env : Env) (d : Doc) (a : Action) :
  In a (offered (effects_of (refresh env) d)) <->
  enabled d = true /\ app_id d <> EmptyString /\ needs a d = true.
Proof.
  rewrite <- nonempty_true.
  run_ui.
  destruct (enabled d), (nonempty (app_id d)), (nonempty (access_token d)) eqn:Ha,
    (nonempty (webhook_callback_url d)) eqn:Hw;
    (destruct (token_expiry d) as [expiry|];
     [cbv zeta;
      destruct (lt_num (days_remaining expiry (now env)) 0);
        [|destruct (lt_num (days_remaining expiry (now env)) 7)]|]);
    destruct a; cbn [needs]; rewrite ?Ha, ?Hw; cbn;
    intuition (try discriminate; try congruence).
Qed.

(** X10: [refresh] only draws: it leaves the document as it is, calls no
    server method, points the browser nowhere, and every effect is a button
    or a dashboard entry, with at most one indicator among them. *)
Theorem refresh_only_draws (env : Env) (d : Doc) :
  doc_after (refresh env) d = d /\
  calls (effects_of (refresh env) d) = [] /\
  urls (effects_of (refresh env) d) = [] /\
  forallb (fun e => is_button e || is_dashboard e) (effects_of (refresh env) d) = true /\
  (List.length (filter is_indicator (effects_of (refresh env) d)) <= 1)%nat.
Proof.
  run_ui.
  destruct (enabled d), (nonempty (app_id d)), (nonempty (access_token d)),
    (nonempty (webhook_callback_url d));
    (destruct (token_expiry d) as [expiry|];
     [cbv zeta;
      destruct (lt_num (days_remaining expiry (now env)) 0);
        [|destruct (lt_num (days_remaining expiry (now env)) 7)]|]);
    cbn; repeat split; lia.
Qed.

(** X11: for a token that has not expired yet ([now <= token_expiry]),
    [refresh] shows a number of days that is not negative: 'Token Expiring
    Soon' in orange when the expiry is less than seven days away, a token
    expiring this very millisecond included (0 days), and 'Token Valid' in
    green from seven days on; no headline alert.  The number shown is the
    number of whole days left, [(expiry - now) / 86400000] rounded down, as
    long as the expiry lies less than [2 ^ 53] milliseconds ahead, where the
    subtraction and the division of doubles lose nothing; further ahead it
    is what the rounded difference gives. *)
Theorem refresh_unexpired_token (env : Env) (d : Doc) (expiry : Z) :
  token_expiry d = Some (TimeValue expiry) ->
  now env <= expiry ->
  exists days,
    days_remaining (TimeValue expiry) (now env) = Some days /\
    0 <= days /\
    (days < 7 <-> expiry < now env + 7 * ms_per_day) /\
    (expiry - now env < 2 ^ 53 -> days = (expiry - now env) / ms_per_day) /\
    dashboard (effects_of (refresh env) d) =
      [ if days <? 7
        then add_indicator (T "Token Expiring Soon ({0} days)" [ArgNumber days])
               "orange"
        else add_indicator (T "Token Valid ({0} days)" [ArgNumber days]) "green" ].
Proof.
  intros Hexp Hle.
  exists (Double.Math_floor (Double.div (Double.sub expiry (now env)) ms_per_day)).
  pose proof (days_remaining_nonneg expiry (now env) Hle) as Hpos.
  split; [reflexivity|]. split; [exact Hpos|].
  split; [exact (days_remaining_threshold expiry (now env) Hle)|].
  split; [intros Hnear; apply days_remaining_exact; lia|].
  rewrite refresh_dashboard, Hexp. cbv zeta.
  unfold lt_num, days_remaining, arg_of_days.
  set (days := Double.Math_floor _) in *.
  replace (days <? 0) with false by (symmetry; apply Z.ltb_ge; exact Hpos).
  destruct (days <? 7); reflexivity.
Qed.

(** X12: a [token_expiry] that [new Date] cannot read gives NaN days, for
    which both comparisons fail: [refresh] shows the green 'Token Valid'
    indicator with NaN days, and neither a warning nor the alert. *)
Theorem refresh_unreadable_expiry (env : Env) (d : Doc) :
  token_expiry d = Some InvalidDate ->
  dashboard (effects_of (refresh env) d) =
    [add_indicator (T "Token Valid ({0} days)" [ArgNaN]) "green"].
Proof.
  intros Hexp. rewrite refresh_dashboard, Hexp. reflexivity.
Qed.

(** X13: the [app_id] handler fills blanks only: with an app id set it
    leaves both URL fields non-empty, writing the Facebook default into a
    field only if it was empty and keeping any URL already there; without
    an app id it does nothing; no other field changes, and running it a
    second time changes nothing and writes nothing. *)
Theorem app_id_fills_blanks (d : Doc) :
  let d' := doc_after on_app_id d in
  (app_id d = EmptyString -> d' = d /\ effects_of on_app_id d = []) /\
  (app_id d <> EmptyString ->
     authorization_url d' =
       (if nonempty (authorization_url d) then authorization_url d
        else default_authorization_url) /\
     access_token_url d' =
       (if nonempty (access_token_url d) then access_token_url d
        else default_access_token_url)) /\
  (enabled d' = enabled d /\ app_id d' = app_id d /\
   access_token d' = access_token d /\
   webhook_callback_url d' = webhook_callback_url d /\
   webhook_verify_token d' = webhook_verify_token d /\
   token_expiry d' = token_expiry d) /\
  doc_after on_app_id d' = d' /\
  effects_of on_app_id d' = [].
Proof.
  cbv zeta. rewrite <- nonempty_true, <- nonempty_false.
  destruct d as [en aid tok cb vt ex au at_].
  destruct aid as [|c1 aid], au as [|c2 au], at_ as [|c3 at_];
    cbv [doc_after effects_of on_app_id frm_set_authorization_url
         frm_set_access_token_url ui_bind get_doc put_doc emit ret when
         set_authorization_url set_access_token_url nonempty is_empty_string
         negb andb fst snd app_id authorization_url access_token_url enabled
         access_token webhook_callback_url webhook_verify_token token_expiry
         default_authorization_url default_access_token_url app];
    repeat split; intros; try discriminate; try congruence; try reflexivity.
Qed.

(** X14: which handlers can change the form's document: [app_id] can change
    the two URL fields only, a Regenerate Verify Token click leaves either
    the document as it was or the one the server stores, and every other
    handler leaves the document exactly as it was. *)
Theorem handlers_frame (env : Env) (d : Doc) (h : Handler) :
  match h with
  | OnAppId =>
      let d' := doc_after (run env h) d in
      enabled d' = enabled d /\ app_id d' = app_id d /\
      access_token d' = access_token d /\
      webhook_callback_url d' = webhook_callback_url d /\
      webhook_verify_token d' = webhook_verify_token d /\
      token_expiry d' = token_expiry d
  | OnClick RegenerateVerifyToken =>
      doc_after (run env h) d = d \/ doc_after (run env h) d = stored_doc env
  | _ => doc_after (run env h) d = d
  end.
Proof.
  destruct h as [| |[]|]; run_ui; split_cases; cbn; tauto.
Qed.

(** X15: the server methods a handler calls are fixed by the handler and the
    operator's answer alone: none for [refresh], [app_id], Test Callback URL
    and the two Copy buttons; one for Authorize and Check Token Status; one,
    and only after a confirmed dialog, for Refresh Token and Regenerate
    Verify Token; two for the console helper. *)
Theorem handlers_calls (env : Env) (d : Doc) (h : Handler) :
  calls (effects_of (run env h) d) = methods_of env h.
Proof.
  destruct h as [| |[]|]; run_ui; cbv [methods_of]; split_cases; reflexivity.
Qed.

(** X16: wherever a handler points the browser, in a popup or in the page
    itself, is either the non-empty authorization URL of the server's reply
    or the test-callback page of the site itself; only Authorize, Test
    Callback URL and Refresh Token point it anywhere. *)
Theorem handlers_urls (env : Env) (d : Doc) (h : Handler) (url : string) :
  In url (urls (effects_of (run env h) d)) ->
  (h = OnClick AuthorizeFacebook \/ h = OnClick TestCallbackUrl
   \/ h = OnClick RefreshToken) /\
  ((exists r, authorization_reply env = Some r /\
              url = reply_authorization_url r /\ url <> EmptyString)
   \/ url = (origin env ++ test_callback_path)%string).
Proof.
  destruct h as [| |[]|]; run_ui; split_cases; cbn;
    intros H; try contradiction;
    destruct H as [<-|[]];
    (split; [tauto|]);
    try (right; reflexivity);
    left; eexists; (split; [reflexivity|]); (split; [reflexivity|]);
    apply nonempty_true; assumption.
Qed.

(** X17: Authorize with Facebook opens the authorization popup exactly when
    the server's reply carries a non-empty authorization URL and the
    operator presses Authorize Now, and then on that URL; when the reply is
    missing or carries no URL the handler shows nothing at all. *)
Theorem authorize_facebook_popup (env : Env) (d : Doc) :
  (urls (effects_of (authorize_facebook env) d) =
     match authorization_reply env with
     | Some r =>
         if nonempty (reply_authorization_url r) && primary_action_clicked env
         then [reply_authorization_url r] else []
     | None => []
     end) /\
  ((forall r, authorization_reply env = Some r ->
              reply_authorization_url r = EmptyString) ->
   effects_of (authorize_facebook env) d =
     [call "creqit.meta.FacebookLeadAds.oauth.get_authorization_url"]).
Proof.
  run_ui. split.
  - destruct (authorization_reply env) as [r|]; [|reflexivity].
    destruct (nonempty (reply_authorization_url r)),
      (primary_action_clicked env); reflexivity.
  - intros H. destruct (authorization_reply env) as [r|]; [|reflexivity].
    specialize (H r eq_refl). apply nonempty_false in H. rewrite H. reflexivity.
Qed.

(** X18: a click on Check Token Status that the server answers shows one
    Token Status dialog, after the call, and nothing else; its indicator is
    red exactly for a reply without token or with an expired one, orange
    exactly for an unexpired token whose [expires_in_days] member is [null]
    or a number below seven, and green otherwise; the initial blue is never
    shown. *)
Theorem token_status_indicator (env : Env) (d : Doc) (status : TokenInfo) :
  token_info_reply env = Some status ->
  exists message color,
    effects_of (check_token_status env) d = token_status_dialog message color /\
    (color = "red"%string <->
       has_token status = false \/ is_expired status = true) /\
    (color = "orange"%string <->
       has_token status = true /\ is_expired status = false /\
       (expires_in_days status = IsNull \/
        exists n, expires_in_days status = Number n /\ n < 7)) /\
    (color = "red" \/ color = "orange" \/ color = "green")%string.
Proof.
  intros Hreply.
  exists (fst (token_status_message status)), (snd (token_status_message status)).
  split; [rewrite check_token_status_effects, Hreply; reflexivity|].
  unfold token_status_message.
  destruct (has_token status), (is_expired status); cbn [negb snd];
    try (repeat split; intros; try tauto; try discriminate;
         intuition discriminate).
  destruct (expires_in_days status) as [| |n] eqn:Hd; cbn [snd member_lt].
  - destruct (is_long_lived status); cbn [snd];
      (split; [split; [discriminate | intros [H|H]; discriminate H]|]);
      (split; [|tauto]);
      (split; [discriminate|]);
      intros (_ & _ & [H|(n & H & _)]); discriminate H.
  - cbn. split; [split; [discriminate | intros [H|H]; discriminate H]|].
    split; [|tauto]. split; [|reflexivity]. intros _. tauto.
  - destruct (Z.ltb_spec n 7) as [Hn|Hn].
    + split; [split; [discriminate | intros [H|H]; discriminate H]|].
      split; [|tauto]. split; [|reflexivity]. intros _.
      split; [reflexivity|]. split; [reflexivity|]. right. exists n. tauto.
    + split; [split; [discriminate | intros [H|H]; discriminate H]|].
      split; [|tauto]. split; [discriminate|].
      intros (_ & _ & [H|(m & H & Hm)]); [discriminate H|].
      inversion H; subst m. lia.
Qed.

(** X19: over a whole session (any handlers, in any order, each in its own
    surroundings), the form's verify token stays what it was as long as no
    Regenerate Verify Token dialog is confirmed. *)
Theorem session_keeps_verify_token (steps : list (Env * Handler)) (d : Doc) :
  (forall env, In (env, OnClick RegenerateVerifyToken) steps -> confirmed env = false) ->
  webhook_verify_token (run_all steps d) = webhook_verify_token d.
Proof.
  revert d. induction steps as [|[env h] steps IH]; intros d Hc; [reflexivity|].
  unfold run_all. cbn [fold_left fst snd]. fold (run_all steps (doc_after (run env h) d)).
  rewrite IH; [|intros env' Hin; apply Hc; now right].
  destruct h as [| |a|];
    try (apply other_handlers_keep_verify_token; discriminate).
  destruct a; try (apply other_handlers_keep_verify_token; discriminate).
  change (run env (OnClick RegenerateVerifyToken)) with (regenerate_verify_token env).
  rewrite regenerate_doc, (Hc env (or_introl eq_refl)). reflexivity.
Qed.

(** X26: Copy Verify Token writes the verify token the form's document holds
    at that moment, and nothing else, to the clipboard: after a confirmed
    regeneration that the server answered it is the token of the reloaded
    document, and after a declined or unanswered one it is still the old
    token. *)
Theorem copy_after_regenerate (env1 env2 : Env) (d : Doc) :
  let d' := doc_after (run env1 (OnClick RegenerateVerifyToken)) d in
  let copied := effects_of (run env2 (OnClick CopyVerifyToken)) d' in
  In (clipboard_writeText (webhook_verify_token d')) copied /\
  (forall text, In (clipboard_writeText text) copied ->
                text = webhook_verify_token d') /\
  (confirmed env1 = true -> regenerate_reply env1 <> None ->
   d' = stored_doc env1) /\
  (confirmed env1 = false \/ regenerate_reply env1 = None -> d' = d).
Proof.
  cbv zeta.
  change (run env1 (OnClick RegenerateVerifyToken))
    with (regenerate_verify_token env1).
  rewrite regenerate_doc.
  set (d' := if confirmed env1
             then match regenerate_reply env1 with
                  | Some _ => stored_doc env1
                  | None => d
                  end
             else d).
  split; [|split; [|split]].
  - run_ui. destruct (clipboard_error env2); cbn; tauto.
  - intros text. run_ui.
    destruct (clipboard_error env2); cbn; intros [H|[H|[]]];
      try discriminate H; now inversion H.
  - intros Hc Hr. unfold d'. rewrite Hc.
    destruct (regenerate_reply env1); [reflexivity | now elim Hr].
  - intros [Hc|Hr]; unfold d'.
    + now rewrite Hc.
    + rewrite Hr. now destruct (confirmed env1).
Qed.

Lemma token_status_indicator_witness :
  exists message color,
    effects_of (check_token_status (answering declining_env null_days_status))
      sample_doc
    = token_status_dialog message color /\
    color = "orange"%string.
Proof.
  destruct (token_status_indicator (answering declining_env null_days_status)
              sample_doc null_days_status eq_refl)
    as (message & color & Hshown & _ & Horange & _).
  exists message, color. split; [exact Hshown|].
  apply Horange. split; [reflexivity|]. split; [reflexivity|]. left. reflexivity.
Defined.

Lemma refresh_unexpired_token_witness :
  dashboard (effects_of (refresh declining_env) expiring_doc) =
    [add_indicator (T "Token Expiring Soon ({0} days)" [ArgNumber 3]) "orange"].
Proof.
  destruct (refresh_unexpired_token declining_env expiring_doc 1700259200000
              eq_refl) as (days & Hdays & _ & _ & _ & H);
    [vm_compute; discriminate|].
  vm_compute in Hdays. inversion Hdays; subst days. exact H.
Defined.

Lemma refresh_unreadable_expiry_witness :
  dashboard (effects_of (refresh declining_env) unreadable_doc) =
    [add_indicator (T "Token Valid ({0} days)" [ArgNaN]) "green"].
Proof.
  apply (refresh_unreadable_expiry declining_env unreadable_doc). reflexivity.
Defined.

Lemma handlers_urls_witness :
  exists r, authorization_reply confirming_env = Some r /\
            reply_authorization_url r
            = "https://www.facebook.com/v24.0/dialog/oauth?client_id=1234567890"%string.
Proof.
  destruct (handlers_urls confirming_env sample_doc (OnClick RefreshToken)
              "https://www.facebook.com/v24.0/dialog/oauth?client_id=1234567890")
    as [_ [[r [Hr [Hu _]]]|H]].
  - vm_compute. left. reflexivity.
  - exists r. split; [exact Hr | now rewrite <- Hu].
  - vm_compute in H. discriminate H.
Defined.

Lemma session_keeps_verify_token_witness :
  webhook_verify_token (run_all sample_session sample_doc) = "4f1c2d"%string.
Proof.
  apply (session_keeps_verify_token sample_session sample_doc).
  intros env [H|[H|[H|[H|[H|[]]]]]]; inversion H. reflexivity.
Defined.

End SettingsExtras.

(** ** The form events of the account list *)

Module AccountFormExtras.

Import MetaLeadAccountList RenderFacts MetaLeadAccountForm.

Section WithBuiltins.

Variable Number_nonzero : string -> bool.
Variable Number_toString : string -> string.

Local Abbreviation render_accounts_table :=
  (render_accounts_table Number_nonzero Number_toString).
Local Abbreviation refresh := (refresh Number_nonzero Number_toString).

Lemma render_depends_on_json (frm1 frm2 : Form) :
  accounts_json frm1 = accounts_json frm2 ->
  fst (render_accounts_table frm1) = fst (render_accounts_table frm2) /\
  (forall u, fst (render_accounts_table frm1) = Normal u ->
             snd (render_accounts_table frm1) = snd (render_accounts_table frm2)).
Proof.
  intros H. unfold MetaLeadAccountList.render_accounts_table, raw_of,
    set_innerHTML. rewrite H.
  destruct (JSON_parse _) as [rows|e]; [|split; reflexivity].
  destruct (length_is_falsy Number_nonzero rows) as [[|]|e];
    [split; reflexivity | | split; [reflexivity | discriminate]].
  destruct (rows_map Number_nonzero Number_toString rows);
    split; try reflexivity; discriminate.
Qed.

Lemma render_throw_keeps_form (frm : Form) (e : exn) :
  fst (render_accounts_table frm) = Throw e ->
  snd (render_accounts_table frm) = frm.
Proof.
  unfold MetaLeadAccountList.render_accounts_table.
  destruct (JSON_parse _) as [rows|e0]; [|discriminate].
  destruct (length_is_falsy Number_nonzero rows) as [[|]|e1];
    [discriminate | | reflexivity].
  destruct (rows_map Number_nonzero Number_toString rows);
    [discriminate | reflexivity].
Qed.

(** X20: a refresh either returns or throws, and which of the two depends
    on [accounts_json] alone.  When it returns, what it leaves in the
    container depends on [accounts_json] alone too: the old content is
    replaced, never extended, so two forms with the same [accounts_json]
    end with the same content whatever they held, and refreshing a second
    time changes nothing.  When it throws, the form is left as it was, old
    content included, so two such forms keep their different contents.
    Every refresh adds the Sync Accounts button, also when rendering
    throws. *)
Theorem refresh_replaces_content (frm1 frm2 : Form) :
  accounts_json frm1 = accounts_json frm2 ->
  fst (fst (refresh frm1)) = fst (fst (refresh frm2)) /\
  snd (refresh frm1) = [add_custom_button "Sync Accounts"] /\
  (forall u, fst (fst (refresh frm1)) = Normal u ->
             snd (fst (refresh frm1)) = snd (fst (refresh frm2)) /\
             refresh (snd (fst (refresh frm1))) = refresh frm1) /\
  (forall e, fst (fst (refresh frm1)) = Throw e ->
             snd (fst (refresh frm1)) = frm1 /\
             snd (fst (refresh frm2)) = frm2).
Proof.
  intros H. unfold MetaLeadAccountForm.refresh.
  destruct (render_depends_on_json frm1 frm2 H) as [Hc Hf].
  pose proof (render_throw_keeps_form frm1) as Hk1.
  pose proof (render_throw_keeps_form frm2) as Hk2.
  destruct (render_accounts_table frm1) as [c1 f1] eqn:E1.
  destruct (render_accounts_table frm2) as [c2 f2] eqn:E2.
  cbn [fst snd] in *. split; [exact Hc|]. split; [reflexivity|]. split.
  - intros u Hu. split; [exact (Hf u Hu)|].
    assert (Hj : accounts_json f1 = accounts_json frm1).
    { pose proof (f_equal snd E1) as Hs. cbn [snd] in Hs. rewrite <- Hs.
      unfold MetaLeadAccountList.render_accounts_table.
      destruct (JSON_parse _) as [rows|e]; [|reflexivity].
      destruct (length_is_falsy Number_nonzero rows) as [[|]|e]; try reflexivity.
      destruct (rows_map Number_nonzero Number_toString rows); reflexivity. }
    destruct (render_depends_on_json f1 frm1 Hj) as [Hc' Hf'].
    rewrite E1 in Hc', Hf'. cbn [fst snd] in Hc', Hf'.
    destruct (render_accounts_table f1) as [c3 f3]. cbn [fst snd] in *.
    subst c3. rewrite (Hf' u Hu). reflexivity.
  - intros e He. split; [exact (Hk1 e He)|].
    apply (Hk2 e). rewrite <- Hc. exact He.
Qed.

End WithBuiltins.

Lemma refresh_replaces_content_witness :
  snd (fst (refresh (fun _ => true) (fun n => n) sample_form))
  = snd (fst (refresh (fun _ => true) (fun n => n)
                {| accounts_json := Some sample_accounts_json;
                   innerHTML := EmptyString |})).
Proof.
  destruct (refresh_replaces_content (fun _ => true) (fun n => n) sample_form
              {| accounts_json := Some sample_accounts_json;
                 innerHTML := EmptyString |} eq_refl) as [_ [_ [H _]]].
  apply (H tt). vm_compute. reflexivity.
Defined.

(** X21: the Sync Accounts callback calls the server once; without a reply
    it does nothing more, and with one it shows one alert with the two
    counts and then reloads the document, in this order; the alert is
    orange exactly when the reply holds a number of failures other than
    zero, and green otherwise, a reply without a [failures] member
    included. *)
Theorem sync_accounts_feedback (reply : option SyncReply) :
  let method :=
    "creqit.meta.doctype.meta_lead_account_list.meta_lead_account_list.sync_accounts"
  in
  (reply = None -> sync_accounts reply = [call method]) /\
  (forall r, reply = Some r ->
     exists indicator,
       sync_accounts reply =
         [ call method;
           show_alert "Processed: {0}, Failures: {1}"
             [total_processed r; failures r] indicator;
           reload_doc ] /\
       (indicator = "orange" <-> exists n, failures r = Number n /\ n <> 0%Z) /\
       (indicator = "green" <-> ~ exists n, failures r = Number n /\ n <> 0%Z)).
Proof.
  cbv zeta. split; [intros ->; reflexivity|].
  intros r ->.
  exists (if nonzero (failures r) then "orange" else "green").
  split; [reflexivity|].
  destruct (failures r) as [| |n]; cbn [nonzero].
  - split; split; try discriminate; try reflexivity.
    + intros [n [E _]]. discriminate E.
    + intros _ [n [E _]]. discriminate E.
  - split; split; try discriminate; try reflexivity.
    + intros [n [E _]]. discriminate E.
    + intros _ [n [E _]]. discriminate E.
  - destruct (Z.eqb_spec n 0) as [E|E]; cbn [negb].
    + split; split; try discriminate; try reflexivity.
      * intros [m [Em Hm]]. inversion Em; subst. now elim Hm.
      * intros _ [m [Em Hm]]. inversion Em; subst. now elim Hm.
    + split; split; try discriminate; try reflexivity.
      * intros _. exists n. split; [reflexivity | exact E].
      * intros Hn. elim Hn. exists n. split; [reflexivity | exact E].
Qed.

End AccountFormExtras.

(** ** The account dashboard *)

Module AccountDashboardExtras.

Import AccountDashboard.
Local Open Scope list_scope.

Lemma count_refreshes_app (a b : list Effect) :
  count_refreshes (a ++ b) = count_refreshes a + count_refreshes b.
Proof.
  unfold count_refreshes. now rewrite filter_app, length_app.
Qed.

(** X22: [setup] always completes, whatever the object held: it resets the
    account filter to [null] before refreshing, so it never refreshes the
    dashboard and leaves [dashboard_settings] as they were, even when an
    account had been chosen before. *)
Theorem setup_never_refreshes (s : Dashboard) :
  exists s',
    setup s = Normal s' /\
    filters s' = Some None /\
    dashboard_settings s' = dashboard_settings s /\
    page_title s' = page_title s /\
    trace s' = trace s ++ [append_container; append_filter_area; make_account_field] /\
    count_refreshes (trace s') = count_refreshes (trace s).
Proof.
  eexists. split; [reflexivity|].
  cbn [filters dashboard_settings page_title trace setup_filters
       setup_dashboard with_trace].
  repeat split.
  - now rewrite <- app_assoc.
  - rewrite <- app_assoc, count_refreshes_app.
    change (count_refreshes ([append_container]
                             ++ [append_filter_area; make_account_field]))
      with 0.
    lia.
Qed.

Lemma on_change_defined (v : option string) (s : Dashboard) :
  filters s <> None ->
  exists s',
    on_change v s = Normal s' /\
    filters s' = Some v /\
    page_title s' = page_title s /\
    dashboard_settings s' =
      match chosen v with
      | Some a => AccountFilters a
      | None => dashboard_settings s
      end /\
    trace s' = trace s ++ match chosen v with
                          | Some _ => [dashboard_refresh]
                          | None => []
                          end.
Proof.
  intros Hf. unfold on_change, refresh.
  destruct (filters s) as [old|]; [|now elim Hf]. cbn [filters].
  destruct (chosen v) as [a|]; eexists; (split; [reflexivity|]); cbn;
    repeat split. now rewrite app_nil_r.
Qed.

Lemma changes_spec (values : list (option string)) (s : Dashboard) :
  filters s <> None ->
  exists s',
    changes values s = Normal s' /\
    filters s' <> None /\
    dashboard_settings s' =
      fold_left (fun acc v => match chosen v with
                              | Some a => AccountFilters a
                              | None => acc
                              end) values (dashboard_settings s) /\
    count_refreshes (trace s') = count_refreshes (trace s) + count_chosen values.
Proof.
  revert s. induction values as [|v values IH]; intros s Hf.
  - exists s. cbn. repeat split; [exact Hf | lia].
  - destruct (on_change_defined v s Hf) as (s1 & H1 & Hf1 & _ & Hd1 & Ht1).
    destruct (IH s1) as (s' & H' & Hf' & Hd' & Hc'); [rewrite Hf1; discriminate|].
    exists s'. cbn [changes]. rewrite H1. split; [exact H'|].
    split; [exact Hf'|]. split.
    + cbn [fold_left]. rewrite Hd', Hd1. reflexivity.
    + rewrite Hc', Ht1, count_refreshes_app. unfold count_chosen. cbn [filter].
      destruct (chosen v); cbn; lia.
Qed.

Lemma settings_fold (values : list (option string)) (init : Settings) (acc : option string) :
  fold_left (fun st v => match chosen v with
                         | Some a => AccountFilters a
                         | None => st
                         end) values
    (match acc with Some a => AccountFilters a | None => init end) =
  match fold_left (fun acc v => match chosen v with Some a => Some a | None => acc end)
          values acc with
  | Some a => AccountFilters a
  | None => init
  end.
Proof.
  revert acc. induction values as [|v values IH]; intros acc; [reflexivity|].
  cbn [fold_left]. destruct (chosen v) as [a|].
  - exact (IH (Some a)).
  - exact (IH acc).
Qed.

(** X23: once the filters are set up, the account field can change any
    number of times without an exception; afterwards [dashboard_settings]
    filter by the last account actually chosen (an emptied field does not
    count and leaves the earlier settings in force), or are what they were
    if none was chosen, and the dashboard was refreshed once for each
    chosen account and never for an emptied field. *)
Theorem changes_keep_last_chosen (values : list (option string)) (s : Dashboard) :
  filters s <> None ->
  exists s',
    changes values s = Normal s' /\
    dashboard_settings s' =
      match last_chosen values with
      | Some a => AccountFilters a
      | None => dashboard_settings s
      end /\
    count_refreshes (trace s') = count_refreshes (trace s) + count_chosen values.
Proof.
  intros Hf. destruct (changes_spec values s Hf) as (s' & H & _ & Hd & Hc).
  exists s'. split; [exact H|]. split; [|exact Hc].
  rewrite Hd. exact (settings_fold values (dashboard_settings s) None).
Qed.

Lemma changes_keep_last_chosen_witness :
  exists s',
    changes sample_values (setup_filters fresh) = Normal s' /\
    dashboard_settings s' = AccountFilters "ACC-0002" /\
    count_refreshes (trace s') = 2.
Proof.
  destruct (changes_keep_last_chosen sample_values (setup_filters fresh))
    as (s' & H & Hd & Hc); [discriminate|].
  exists s'. split; [exact H|]. split; [exact Hd | exact Hc].
Defined.

(** X24: [refresh] and the [change] callback read [this.filters.account]:
    on an object whose [setup_filters] has not run they throw a
    [TypeError], and after [setup_filters] neither ever throws. *)
Theorem refresh_needs_filters (s : Dashboard) (v : option string) :
  (filters s = None ->
   refresh s = Throw TypeError /\ on_change v s = Throw TypeError) /\
  (exists s1 s2,
     refresh (setup_filters s) = Normal s1 /\
     on_change v (setup_filters s) = Normal s2).
Proof.
  split.
  - intros H. unfold on_change, refresh. rewrite H. split; reflexivity.
  - unfold on_change, refresh, setup_filters. cbn [filters chosen].
    destruct (chosen v); eexists; eexists; split; reflexivity.
Qed.

End AccountDashboardExtras.
